(** * scripts/md_to_pdf.py: the Markdown-to-PDF line transformer

    A shallow embedding of [load_font], [md_lines], [convert_markdown_to_pdf]
    and [main], followed by the properties of the block sequence ("story")
    that the loop hands to the layout engine. The loop is given twice: as
    the state it reaches when every [Paragraph] call returns ([step], [run],
    [build_story]), and with the exceptions of those calls ([step_r],
    [run_r], [build_story_r]); the second returns only what the first says
    ([build_story_r_sound]).

    Python strings are sequences of Unicode code points, so a string is a
    list of code points here; the byte-order mark U+FEFF is one character. *)

From Stdlib Require Import List Bool NArith ZArith String Ascii Lia.
Import ListNotations.

(* ================================================================= *)
(** ** Python strings *)

Module PyStr.

Definition char := N.
Definition pystr := list char.

(** An ASCII literal as a Python string. *)
Definition py (s : string) : pystr := map N_of_ascii (list_ascii_of_string s).

Definition LF : char := 10%N.
Definition CR : char := 13%N.
Definition BOM : char := 65279%N.          (* U+FEFF *)
Definition PIPE : char := 124%N.           (* the pipe character *)

Definition mem (c : char) (chars : pystr) : bool := existsb (N.eqb c) chars.

(** [s.lstrip(chars)], [s.rstrip(chars)], [s.strip(chars)]: drop the
    characters of [chars] from the left end, the right end, both ends. *)
Fixpoint lstrip (chars s : pystr) : pystr :=
  match s with
  | [] => []
  | c :: t => if mem c chars then lstrip chars t else s
  end.

Definition rstrip (chars s : pystr) : pystr := rev (lstrip chars (rev s)).

Definition strip (chars s : pystr) : pystr := rstrip chars (lstrip chars s).

(** [s.startswith(prefix)] *)
Fixpoint startswith (s prefix : pystr) {struct prefix} : bool :=
  match prefix, s with
  | [], _ => true
  | _ :: _, [] => false
  | p :: ps, c :: cs => N.eqb c p && startswith cs ps
  end.

(** [sub in s] *)
Fixpoint contains (sub s : pystr) : bool :=
  startswith s sub ||
  match s with
  | [] => false
  | _ :: t => contains sub t
  end.

(** [s.count(c)] for a one-character needle [c]. *)
Fixpoint count (s : pystr) (c : char) : Z :=
  match s with
  | [] => 0
  | d :: t => ((if N.eqb d c then 1 else 0) + count t c)%Z
  end.

(** [s[n:]] *)
Definition slice_from (n : nat) (s : pystr) : pystr := skipn n s.

(** [sep.join(parts)] *)
Fixpoint join (sep : pystr) (parts : list pystr) : pystr :=
  match parts with
  | [] => []
  | [p] => p
  | p :: rest => p ++ sep ++ join sep rest
  end.

(** [str.isspace] on one character: the code points Python treats as
    whitespace. *)
Definition isspace (c : char) : bool :=
  ((9 <=? c) && (c <=? 13) || (28 <=? c) && (c <=? 32) ||
   (c =? 133) || (c =? 160) || (c =? 5760) ||
   (8192 <=? c) && (c <=? 8202) || (c =? 8232) || (c =? 8233) ||
   (c =? 8239) || (c =? 8287) || (c =? 12288))%N.

End PyStr.
Import PyStr.

(* ================================================================= *)
(** ** Reading the document: [md_lines] *)

(** The file is opened in text mode with the default [newline=None]:
    "\r\n" and a lone "\r" reach the program as "\n". *)
Fixpoint universal_newlines (s : pystr) : pystr :=
  match s with
  | [] => []
  | c :: t =>
      if N.eqb c CR then
        LF :: match t with
              | d :: t' => if N.eqb d LF then universal_newlines t'
                           else universal_newlines t
              | [] => []
              end
      else c :: universal_newlines t
  end.

(** [for line in f]: each line with its terminator, the last one possibly
    without. [cur] is the line read so far. *)
Fixpoint file_iter (cur s : pystr) : list pystr :=
  match s with
  | [] => match cur with [] => [] | _ :: _ => [cur] end
  | c :: t => if N.eqb c LF then (cur ++ [c]) :: file_iter [] t
              else file_iter (cur ++ [c]) t
  end.

(** [md_lines]: [yield line.rstrip("\n")] for every line of the file, whose
    decoded content is [text]. *)
Definition md_lines (text : pystr) : list pystr :=
  map (rstrip [LF]) (file_iter [] (universal_newlines text)).

(* ================================================================= *)
(** ** Styles and flowables (the layout engine's data) *)

Record ParagraphStyle := mkStyle {
  name : string;
  fontName : string;
  fontSize : Z;
  leading : Z;
  spaceAfter : Z;
  alignment : Z;
  backColor : option string
}.

Definition TA_LEFT : Z := 0.

(** [getSampleStyleSheet()["Normal"]], the stock style of the layout
    library that [normal] derives from. *)
Definition sample_Normal : ParagraphStyle :=
  {| name := "Normal"; fontName := "Helvetica"; fontSize := 10; leading := 12;
     spaceAfter := 0; alignment := TA_LEFT; backColor := None |}.

(** [ListItem(Paragraph(text, style))] *)
Inductive ListItem :=
| ListItem_Paragraph (text : pystr) (style : ParagraphStyle).

Inductive Flowable :=
| Paragraph (text : pystr) (style : ParagraphStyle)
| Spacer (width height : Z)
| ListFlowable (items : list ListItem) (leftIndent : Z)
| Preformatted (text : pystr) (style : ParagraphStyle).

(** The five styles built at the top of [convert_markdown_to_pdf]; a style
    inherits from its [parent] every attribute it does not set. *)
Section Styles.

Variable base_font : string.

Definition normal : ParagraphStyle :=
  {| name := "NormalCJK"; fontName := base_font; fontSize := 11; leading := 15;
     spaceAfter := spaceAfter sample_Normal; alignment := TA_LEFT;
     backColor := backColor sample_Normal |}.

Definition h1 : ParagraphStyle :=
  {| name := "H1"; fontName := fontName normal; fontSize := 18; leading := 22;
     spaceAfter := 8; alignment := alignment normal;
     backColor := backColor normal |}.

Definition h2 : ParagraphStyle :=
  {| name := "H2"; fontName := fontName normal; fontSize := 16; leading := 20;
     spaceAfter := 6; alignment := alignment normal;
     backColor := backColor normal |}.

Definition h3 : ParagraphStyle :=
  {| name := "H3"; fontName := fontName normal; fontSize := 14; leading := 18;
     spaceAfter := 4; alignment := alignment normal;
     backColor := backColor normal |}.

Definition code : ParagraphStyle :=
  {| name := "Code"; fontName := "Courier"; fontSize := 9; leading := 12;
     spaceAfter := spaceAfter normal; alignment := alignment normal;
     backColor := None |}.

(* ================================================================= *)
(** ** The transformer's loop *)

(** The mutable variables of [convert_markdown_to_pdf]. *)
Record State := mkState {
  story : list Flowable;
  bullet_buf : list pystr;
  in_code : bool;
  code_buf : list pystr
}.

Definition init : State :=
  {| story := []; bullet_buf := []; in_code := false; code_buf := [] |}.

(** [story.append(b1); story.append(b2); ...] *)
Definition append (st : State) (blocks : list Flowable) : State :=
  {| story := story st ++ blocks; bullet_buf := bullet_buf st;
     in_code := in_code st; code_buf := code_buf st |}.

(** [flush_bullets(bullet_buf)], with the default [indent = 12]: the state
    it leaves when the [Paragraph] call of every item returns. *)
Definition flush_bullets (st : State) : State :=
  match bullet_buf st with
  | [] => st
  | buf =>
      let items := map (fun x => ListItem_Paragraph x normal) buf in
      {| story := story st ++ [ListFlowable items 12; Spacer 1 4];
         bullet_buf := []; in_code := in_code st; code_buf := code_buf st |}
  end.

Definition FENCE : pystr := Eval cbv in py "```".
Definition H1_MARK : pystr := Eval cbv in py "# ".
Definition H2_MARK : pystr := Eval cbv in py "## ".
Definition H3_MARK : pystr := Eval cbv in py "### ".
Definition DASH_MARK : pystr := Eval cbv in py "- ".
Definition STAR_MARK : pystr := Eval cbv in py "* ".
Definition RULE : pystr := Eval cbv in py "---".

(** One iteration of [for raw in md_lines(md_path)]: the state it leaves
    when its [Paragraph] calls return. *)
Definition step (st : State) (raw : pystr) : State :=
  let line := strip [BOM] raw in
  if startswith line FENCE then
    if negb (in_code st) then
      let st := flush_bullets st in
      {| story := story st; bullet_buf := bullet_buf st;
         in_code := true; code_buf := [] |}
    else
      let st := append st [Preformatted (join [LF] (code_buf st)) code;
                           Spacer 1 6] in
      {| story := story st; bullet_buf := bullet_buf st;
         in_code := false; code_buf := code_buf st |}
  else if in_code st then
    {| story := story st; bullet_buf := bullet_buf st;
       in_code := in_code st; code_buf := code_buf st ++ [raw] |}
  else match line with
  | [] => append (flush_bullets st) [Spacer 1 6]
  | _ :: _ =>
  if startswith line H1_MARK then
    append (flush_bullets st) [Paragraph (slice_from 2 line) h1]
  else if startswith line H2_MARK then
    append (flush_bullets st) [Paragraph (slice_from 3 line) h2]
  else if startswith line H3_MARK then
    append (flush_bullets st) [Paragraph (slice_from 4 line) h3]
  else if startswith line DASH_MARK || startswith line STAR_MARK then
    {| story := story st; bullet_buf := bullet_buf st ++ [slice_from 2 line];
       in_code := in_code st; code_buf := code_buf st |}
  else if contains [PIPE] line &&
          (contains RULE line || (2 <=? count line PIPE)%Z) then
    append (flush_bullets st) [Preformatted raw code]
  else
    append (flush_bullets st) [Paragraph line normal]
  end.

(** The whole loop over the lines. *)
Definition run (st : State) (lines : list pystr) : State :=
  fold_left step lines st.

(** The loop, then the final [flush_bullets(bullet_buf)]: the story that
    is handed to [doc.build]. *)
Definition build_story (lines : list pystr) : list Flowable :=
  story (flush_bullets (run init lines)).

Definition convert_story (text : pystr) : list Flowable :=
  build_story (md_lines text).

End Styles.


(* ================================================================= *)
(** ** Calls that may raise *)

(** What a call gives: a value, or an exception (by the name of its
    class). *)
Inductive result (A : Type) :=
| Ok (a : A)
| Raised (exn : string).

Arguments Ok {A} a.
Arguments Raised {A} exn.

(** Sequencing: an exception ends the computation. *)
Definition bind {A B : Type} (r : result A) (k : A -> result B) : result B :=
  match r with
  | Ok a => k a
  | Raised e => Raised e
  end.

Notation "x <- r ;; k" := (bind r (fun x => k))
  (at level 61, r at next level, right associativity).

(* ================================================================= *)
(** ** The loop with the exceptions of [Paragraph]

    [Paragraph(text, style)] parses [text] as markup when it is built and
    raises [ValueError] when the parser rejects it; nothing in
    [convert_markdown_to_pdf] catches that. [step], [flush_bullets], [run]
    and [build_story] above give the state and the story when every such
    call returns; the functions below are the loop itself, exceptions
    included. The parser belongs to the layout library: [accepts text style]
    tells whether it takes the text. *)

Section Raising.

Variable accepts : pystr -> ParagraphStyle -> bool.
Variable base_font : string.

(** [Paragraph(text, style)] *)
Definition new_Paragraph (text : pystr) (style : ParagraphStyle)
    : result Flowable :=
  if accepts text style then Ok (Paragraph text style)
  else Raised "ValueError".

(** [[ListItem(Paragraph(x, normal)) for x in buf]] *)
Fixpoint new_items (buf : list pystr) : result (list ListItem) :=
  match buf with
  | [] => Ok []
  | x :: rest =>
      if accepts x (normal base_font) then
        items <- new_items rest ;;
        Ok (ListItem_Paragraph x (normal base_font) :: items)
      else Raised "ValueError"
  end.

(** [flush_bullets(bullet_buf)] *)
Definition flush_bullets_r (st : State) : result State :=
  match bullet_buf st with
  | [] => Ok st
  | buf =>
      items <- new_items buf ;;
      Ok {| story := story st ++ [ListFlowable items 12; Spacer 1 4];
            bullet_buf := []; in_code := in_code st; code_buf := code_buf st |}
  end.

(** One iteration of [for raw in md_lines(md_path)]. *)
Definition step_r (st : State) (raw : pystr) : result State :=
  let line := strip [BOM] raw in
  if startswith line FENCE then
    if negb (in_code st) then
      st <- flush_bullets_r st ;;
      Ok {| story := story st; bullet_buf := bullet_buf st;
            in_code := true; code_buf := [] |}
    else
      let st := append st [Preformatted (join [LF] (code_buf st))
                             (code base_font);
                           Spacer 1 6] in
      Ok {| story := story st; bullet_buf := bullet_buf st;
            in_code := false; code_buf := code_buf st |}
  else if in_code st then
    Ok {| story := story st; bullet_buf := bullet_buf st;
          in_code := in_code st; code_buf := code_buf st ++ [raw] |}
  else match line with
  | [] => st <- flush_bullets_r st ;; Ok (append st [Spacer 1 6])
  | _ :: _ =>
  if startswith line H1_MARK then
    st <- flush_bullets_r st ;;
    p <- new_Paragraph (slice_from 2 line) (h1 base_font) ;;
    Ok (append st [p])
  else if startswith line H2_MARK then
    st <- flush_bullets_r st ;;
    p <- new_Paragraph (slice_from 3 line) (h2 base_font) ;;
    Ok (append st [p])
  else if startswith line H3_MARK then
    st <- flush_bullets_r st ;;
    p <- new_Paragraph (slice_from 4 line) (h3 base_font) ;;
    Ok (append st [p])
  else if startswith line DASH_MARK || startswith line STAR_MARK then
    Ok {| story := story st; bullet_buf := bullet_buf st ++ [slice_from 2 line];
          in_code := in_code st; code_buf := code_buf st |}
  else if contains [PIPE] line &&
          (contains RULE line || (2 <=? count line PIPE)%Z) then
    st <- flush_bullets_r st ;;
    Ok (append st [Preformatted raw (code base_font)])
  else
    st <- flush_bullets_r st ;;
    p <- new_Paragraph line (normal base_font) ;;
    Ok (append st [p])
  end.

(** The whole loop over the lines: it stops at the first exception. *)
Fixpoint run_r (st : State) (lines : list pystr) : result State :=
  match lines with
  | [] => Ok st
  | raw :: rest => st' <- step_r st raw ;; run_r st' rest
  end.

(** The loop, then the final [flush_bullets(bullet_buf)]. *)
Definition build_story_r (lines : list pystr) : result (list Flowable) :=
  st <- run_r init lines ;;
  st' <- flush_bullets_r st ;;
  Ok (story st').

Definition convert_story_r (text : pystr) : result (list Flowable) :=
  build_story_r (md_lines text).

End Raising.

(* ================================================================= *)
(** ** The font resolver: [load_font] *)

(** A path as its components; [base / file] appends one. *)
Definition Path := list string.

Definition path_div (base : Path) (file : string) : Path := base ++ [file].

(** A font object built by [TTFont(family, file)]: [face] is its
    [fontName]. *)
Record Font := mkFont { face : string; font_file : Path }.

(** The process-wide font registry of [pdfmetrics]: a dict from font name
    to font, in insertion order. *)
Definition Registry := list (string * Font).

(** [d[k] = v]: the value of an existing key is replaced where it stands,
    a new key goes to the end. *)
Fixpoint dict_set (k : string) (v : Font) (d : Registry) : Registry :=
  match d with
  | [] => [(k, v)]
  | (k', v') :: rest =>
      if String.eqb k' k then (k, v) :: rest
      else (k', v') :: dict_set k v rest
  end.

(** [d.get(k)] *)
Fixpoint dict_get (k : string) (d : Registry) : option Font :=
  match d with
  | [] => None
  | (k', v') :: rest => if String.eqb k' k then Some v' else dict_get k rest
  end.

(** The machine the script runs on and the libraries on it. [Path.cwd()]
    and [p.exists()] may raise ([FileNotFoundError], [PermissionError]);
    [TTFont(family, str(p))] parses the font file and may raise; the
    paragraph parser of the layout library takes a text or not. *)
Record Env := mkEnv {
  cwd : result Path;
  path_exists : Path -> result bool;
  TTFont_parse : string -> Path -> result unit;
  paragraph_ok : pystr -> ParagraphStyle -> bool
}.

(** [TTFont(family, str(p))]: the font named [family] when the file
    parses. *)
Definition TTFont (env : Env) (family : string) (p : Path) : result Font :=
  _ <- TTFont_parse env family p ;;
  Ok {| face := family; font_file := p |}.

(** [pdfmetrics.registerFont(font)]: the font is stored under its name. *)
Definition registerFont (font : Font) (reg : Registry) : Registry :=
  dict_set (face font) font reg.

Definition candidates : list (string * string) :=
  [ ("MicrosoftJhengHei", "msjh.ttc");
    ("MicrosoftJhengHei", "msjh.ttf");
    ("NotoSansCJK", "NotoSansCJK-Regular.ttc");
    ("NotoSansTC", "NotoSansTC-Regular.otf") ]%string.

(** The three directories, given the working directory. *)
Definition search_dirs_in (c : Path) : list Path :=
  [ ["C:"; "Windows"; "Fonts"]%string; path_div c "fonts"; c ].

Section FontResolver.

Variable env : Env.

(** [[Path("C:/Windows/Fonts"), Path.cwd() / "fonts", Path.cwd()]]: the
    list is built, and [Path.cwd()] called, before any file is probed. *)
Definition search_dirs : result (list Path) :=
  c <- cwd env ;; Ok (search_dirs_in c).

(** The inner loop [for base in ...] for one candidate: [Ok (Some family)]
    when the function returns from inside the loop, [Ok None] when the loop
    ends, [Raised] when [p.exists()] raises. The [try] covers the two font
    calls only. *)
Fixpoint load_font_dirs (family file : string) (bases : list Path)
    (reg : Registry) : result (option string) * Registry :=
  match bases with
  | [] => (Ok None, reg)
  | base :: rest =>
      let p := path_div base file in
      match path_exists env p with
      | Raised e => (Raised e, reg)
      | Ok false => load_font_dirs family file rest reg
      | Ok true =>
          match TTFont env family p with
          | Ok font => (Ok (Some family), registerFont font reg)  (* return family *)
          | Raised _ => load_font_dirs family file rest reg       (* continue *)
          end
      end
  end.

(** The outer loop [for family, file in candidates]. *)
Fixpoint load_font_candidates (cands : list (string * string))
    (reg : Registry) : result string * Registry :=
  match cands with
  | [] => (Ok "Helvetica"%string, reg)
  | (family, file) :: rest =>
      match search_dirs with
      | Raised e => (Raised e, reg)
      | Ok bases =>
          match load_font_dirs family file bases reg with
          | (Raised e, reg') => (Raised e, reg')
          | (Ok (Some fam), reg') => (Ok fam, reg')
          | (Ok None, reg') => load_font_candidates rest reg'
          end
      end
  end.

Definition load_font (reg : Registry) : result string * Registry :=
  load_font_candidates candidates reg.

(** [convert_markdown_to_pdf] from its first line to the last
    [flush_bullets]: the resolved font, then the story built from the
    document's [text], or the exception that ends the conversion. What
    follows in the function (the output directory, the document) is in
    [convert_markdown_to_pdf_io] below. *)
Definition convert_markdown_to_pdf (reg : Registry) (text : pystr)
    : result (list Flowable) * Registry :=
  match load_font reg with
  | (Ok base_font, reg') =>
      (convert_story_r (paragraph_ok env) base_font text, reg')
  | (Raised e, reg') => (Raised e, reg')
  end.

(** Every (family, path) the two loops may try, in the order they try
    them: candidates first, directories second; [c] is the working
    directory. *)
Definition attempts_of (c : Path) (cands : list (string * string))
    : list (string * Path) :=
  flat_map (fun cand => map (fun base => (fst cand, path_div base (snd cand)))
                            (search_dirs_in c))
           cands.

Definition attempts (c : Path) : list (string * Path) :=
  attempts_of c candidates.

(** One attempt: [Ok (Some font)] when the file exists and the font
    loads, [Ok None] when the file is absent or [TTFont] raises (the
    exception is swallowed), [Raised] when [p.exists()] raises. *)
Definition try_attempt (a : string * Path) : result (option Font) :=
  match path_exists env (snd a) with
  | Raised e => Raised e
  | Ok false => Ok None
  | Ok true =>
      match TTFont env (fst a) (snd a) with
      | Ok font => Ok (Some font)
      | Raised _ => Ok None
      end
  end.

End FontResolver.

(* ================================================================= *)
(** ** The specification's view of the story *)

(** The block kinds of the specification. *)
Inductive Block :=
| Heading (level : nat) (text : pystr)
| BlockParagraph (text : pystr)
| BlockSpacer
| BlockList (items : list pystr)
| BlockCode (text : pystr).

Definition item_text (i : ListItem) : pystr :=
  match i with ListItem_Paragraph t _ => t end.

(** A paragraph is a heading of level n when it carries the style Hn. *)
Definition block_of (b : Flowable) : Block :=
  match b with
  | Paragraph t sty =>
      if String.eqb (name sty) "H1" then Heading 1 t
      else if String.eqb (name sty) "H2" then Heading 2 t
      else if String.eqb (name sty) "H3" then Heading 3 t
      else BlockParagraph t
  | Spacer _ _ => BlockSpacer
  | ListFlowable items _ => BlockList (map item_text items)
  | Preformatted t _ => BlockCode t
  end.

(** A style, a list item and a flowable with the font family blanked. *)
Definition erase_font_style (s : ParagraphStyle) : ParagraphStyle :=
  {| name := name s; fontName := ""; fontSize := fontSize s;
     leading := leading s; spaceAfter := spaceAfter s;
     alignment := alignment s; backColor := backColor s |}.

Definition erase_font_item (i : ListItem) : ListItem :=
  match i with ListItem_Paragraph t s => ListItem_Paragraph t (erase_font_style s) end.

Definition erase_font (b : Flowable) : Flowable :=
  match b with
  | Paragraph t s => Paragraph t (erase_font_style s)
  | Spacer w h => Spacer w h
  | ListFlowable items indent => ListFlowable (map erase_font_item items) indent
  | Preformatted t s => Preformatted t (erase_font_style s)
  end.

(** A state of the loop with the font family blanked in its story. *)
Definition erase_state (st : State) : State :=
  {| story := map erase_font (story st); bullet_buf := bullet_buf st;
     in_code := in_code st; code_buf := code_buf st |}.

(** The conditions of the loop's branches, on a raw line of the file. *)
Definition stripped (raw : pystr) : pystr := strip [BOM] raw.

Definition is_fence (raw : pystr) : bool := startswith (stripped raw) FENCE.

Definition is_blank (raw : pystr) : bool :=
  match stripped raw with [] => true | _ :: _ => false end.

Definition heading_level (raw : pystr) : option nat :=
  let line := stripped raw in
  if startswith line H1_MARK then Some 1
  else if startswith line H2_MARK then Some 2
  else if startswith line H3_MARK then Some 3
  else None.

Definition is_bullet (raw : pystr) : bool :=
  let line := stripped raw in
  startswith line DASH_MARK || startswith line STAR_MARK.

Definition is_table_like (raw : pystr) : bool :=
  let line := stripped raw in
  contains [PIPE] line && (contains RULE line || (2 <=? count line PIPE)%Z).

(** The heading block of the specification for a heading line: the style
    of its level, and the text after its marker. *)
Definition heading_style (f : string) (level : nat) : ParagraphStyle :=
  match level with 1 => h1 f | 2 => h2 f | _ => h3 f end.

Definition heading_flowable (f : string) (raw : pystr) : Flowable :=
  match heading_level raw with
  | Some n => Paragraph (slice_from (S n) (stripped raw)) (heading_style f n)
  | None => Paragraph (stripped raw) (normal f)
  end.

Definition heading_block (raw : pystr) : Block :=
  match heading_level raw with
  | Some n => Heading n (slice_from (S n) (stripped raw))
  | None => BlockParagraph (stripped raw)
  end.

(** The list item of a bullet line: the text after its two-character
    marker, in the body style. *)
Definition bullet_item (f : string) (raw : pystr) : ListItem :=
  ListItem_Paragraph (slice_from 2 (stripped raw)) (normal f).

Definition is_list_block (b : Flowable) : bool :=
  match b with ListFlowable _ _ => true | _ => false end.

(* ================================================================= *)
(** ** Sample documents and machines *)

Definition example_text : pystr := py "# Title

Hello world
- a
- b

```
code here
```
".

Definition path_eqb (p q : Path) : bool :=
  if list_eq_dec string_dec p q then true else false.

(** A paragraph parser that, like the one of the layout library, rejects
    a text with an opening bold tag and no closing one; it takes every
    other text. *)
Definition markup_strict (text : pystr) (style : ParagraphStyle) : bool :=
  negb (contains (py "<b>") text && negb (contains (py "</b>") text)).

(** A machine with no font file at all. *)
Definition env_bare : Env :=
  {| cwd := Ok ["srv"; "prompts"]%string;
     path_exists := fun _ => Ok false;
     TTFont_parse := fun family p => Raised "TTFError";
     paragraph_ok := markup_strict |}.

(** A machine whose working directory holds a broken msjh.ttc and, under
    fonts/, a NotoSansTC-Regular.otf that loads. *)
Definition env_noto : Env :=
  {| cwd := Ok ["srv"; "prompts"]%string;
     path_exists := fun p =>
       Ok (path_eqb p ["srv"; "prompts"; "msjh.ttc"]%string ||
           path_eqb p ["srv"; "prompts"; "fonts"; "NotoSansTC-Regular.otf"]%string);
     TTFont_parse := fun family p =>
       if path_eqb p ["srv"; "prompts"; "msjh.ttc"]%string
       then Raised "TTFError"
       else Ok tt;
     paragraph_ok := markup_strict |}.

(** The machine of [env_noto] with a fonts/ directory that may not be
    looked into: probing a file there raises. *)
Definition env_locked : Env :=
  {| cwd := Ok ["srv"; "prompts"]%string;
     path_exists := fun p =>
       if path_eqb (removelast p) ["srv"; "prompts"; "fonts"]%string
       then Raised "PermissionError"
       else Ok false;
     TTFont_parse := fun family p => Ok tt;
     paragraph_ok := markup_strict |}.

(** A machine whose working directory has been removed. *)
Definition env_nocwd : Env :=
  {| cwd := Raised "FileNotFoundError";
     path_exists := fun _ => Ok true;
     TTFont_parse := fun family p => Ok tt;
     paragraph_ok := markup_strict |}.

(* ================================================================= *)
(** ** The batch driver: [main], and the output side of
    [convert_markdown_to_pdf] *)

(** [Path.stem]: the final component without its last suffix. With
    [i = name.rfind(".")], the stem is [name[:i]] when
    [0 < i < len(name) - 1] and the whole name otherwise. *)
Fixpoint rfind_from (c : ascii) (s : list ascii) (i : nat)
    (found : option nat) : option nat :=
  match s with
  | [] => found
  | d :: t => rfind_from c t (S i) (if Ascii.eqb d c then Some i else found)
  end.

Definition rfind (c : ascii) (s : list ascii) : option nat :=
  rfind_from c s 0 None.

Definition stem_of_name (name : string) : string :=
  let cs := list_ascii_of_string name in
  match rfind "."%char cs with
  | Some i =>
      if (0 <? i)%nat && (i <? List.length cs - 1)%nat
      then string_of_list_ascii (firstn i cs)
      else name
  | None => name
  end.

(** [p.name], [p.stem], [p.parent] of a path given by its components. *)
Definition path_name (p : Path) : string := last p ""%string.

Definition path_stem (p : Path) : string := stem_of_name (path_name p).

Definition path_parent (p : Path) : Path := removelast p.

(** The page geometry handed to [SimpleDocTemplate]: the page size by its
    name and the margins as multiples of [mm]. *)
Inductive PageSize := A4.

Inductive Length := times_mm (n : Z).

Record DocTemplate := mkDoc {
  filename : string;
  pagesize : PageSize;
  rightMargin : Length;
  leftMargin : Length;
  topMargin : Length;
  bottomMargin : Length;
  title : string
}.

(** What the driver does to the outside world, in order. *)
Inductive Event :=
| Mkdir (p : Path)                                (* p.mkdir(parents=True, exist_ok=True) *)
| Print (line : string)                           (* print(line) *)
| Build (doc : DocTemplate) (story : list Flowable).   (* doc.build(story) *)

(** The machine of a batch run: the font side, the path separator of
    [str(path)], the names in a directory that match a pattern, the decoded
    text of a file, and the calls that may fail: making a directory and
    laying out a document. *)
Record Host := mkHost {
  host_env : Env;
  sep : string;
  glob : Path -> string -> list string;
  read_text : Path -> result pystr;
  mkdir : Path -> result unit;
  doc_build : DocTemplate -> list Flowable -> result unit
}.

Section Driver.

Variable host : Host.

(** [str(p)] *)
Definition str_path (p : Path) : string :=
  match p with
  | [] => "."%string
  | _ :: _ => String.concat (sep host) p
  end.

(** The end of [convert_markdown_to_pdf], once the story is built: the
    output directory, the document template, [doc.build(story)]. *)
Definition write_pdf (md_path pdf_path : Path) (story : list Flowable)
    : result unit * list Event :=
  match mkdir host (path_parent pdf_path) with
  | Raised e => (Raised e, [])
  | Ok _ =>
      let doc :=
        {| filename := str_path pdf_path;
           pagesize := A4;
           rightMargin := times_mm 18;
           leftMargin := times_mm 18;
           topMargin := times_mm 18;
           bottomMargin := times_mm 18;
           title := path_stem md_path |} in
      match doc_build host doc story with
      | Raised e => (Raised e, [Mkdir (path_parent pdf_path)])
      | Ok _ => (Ok tt, [Mkdir (path_parent pdf_path); Build doc story])
      end
  end.

(** The whole of [convert_markdown_to_pdf(md_path, pdf_path)]: the font,
    the story of the file, the output directory, the document. It gives the
    outcome, the registry and the events that took place; the first
    exception ends it. *)
Definition convert_markdown_to_pdf_io (reg : Registry) (md_path pdf_path : Path)
    : result unit * Registry * list Event :=
  match load_font (host_env host) reg with
  | (Raised e, reg') => (Raised e, reg', [])
  | (Ok base_font, reg') =>
      match read_text host md_path with
      | Raised e => (Raised e, reg', [])
      | Ok text =>
          match convert_story_r (paragraph_ok (host_env host)) base_font text with
          | Raised e => (Raised e, reg', [])
          | Ok story =>
              (fst (write_pdf md_path pdf_path story), reg',
               snd (write_pdf md_path pdf_path story))
          end
      end
  end.

(** [pdf = out_dir / f"{md.stem}.pdf"] *)
Definition pdf_for (out_dir md : Path) : Path :=
  path_div out_dir (path_stem md ++ ".pdf")%string.

(** The loop [for md in md_files] of [main]. *)
Fixpoint main_loop (out_dir : Path) (md_files : list Path) (reg : Registry)
    : result unit * Registry * list Event :=
  match md_files with
  | [] => (Ok tt, reg, [])
  | md :: rest =>
      let pdf := pdf_for out_dir md in
      let line := ("Converting " ++ str_path md ++ " -> " ++ str_path pdf)%string in
      match convert_markdown_to_pdf_io reg md pdf with
      | (Raised e, reg', events) => (Raised e, reg', Print line :: events)
      | (Ok _, reg', events) =>
          match main_loop out_dir rest reg' with
          | (r, reg'', events') => (r, reg'', Print line :: events ++ events')
          end
      end
  end.

Definition main (reg : Registry) : result unit * Registry * list Event :=
  let docs_dir : Path := ["docs"%string] in
  let out_dir : Path := ["dist"; "pdf"]%string in
  match mkdir host out_dir with
  | Raised e => (Raised e, reg, [])
  | Ok _ =>
      let md_files := map (path_div docs_dir) (glob host docs_dir "*.md") in
      match md_files with
      | [] =>
          (Ok tt, reg,
           [Mkdir out_dir; Print "No Markdown files found in docs/."])
      | _ :: _ =>
          match main_loop out_dir md_files reg with
          | (Ok _, reg', events) =>
              (Ok tt, reg',
               Mkdir out_dir :: events ++
               [Print ("Done. PDFs at: " ++ str_path out_dir)])
          | (Raised e, reg', events) => (Raised e, reg', Mkdir out_dir :: events)
          end
      end
  end.

(** A document converts when its file can be read, the output directory
    made and the document laid out. *)
Definition converts (out_dir md : Path) : bool :=
  match fst (fst (convert_markdown_to_pdf_io [] md (pdf_for out_dir md))) with
  | Ok _ => true
  | Raised _ => false
  end.

End Driver.

(** The files laid out in a run, in order. *)
Definition built_files (events : list Event) : list string :=
  flat_map (fun e => match e with Build doc _ => [filename doc] | _ => [] end)
           events.

(** The lines printed in a run, in order. *)
Definition printed (events : list Event) : list string :=
  flat_map (fun e => match e with Print line => [line] | _ => [] end) events.

(** The leading elements that satisfy [p]. *)
Fixpoint take_while {A : Type} (p : A -> bool) (l : list A) : list A :=
  match l with
  | [] => []
  | x :: rest => if p x then x :: take_while p rest else []
  end.

(* ================================================================= *)
(** ** Lines by their text *)

(** [raw] is a bullet line with the item text [text]: once the byte-order
    marks are stripped it is a two-character marker followed by [text]. *)
Definition bullet_line (raw text : pystr) : Prop :=
  stripped raw = DASH_MARK ++ text \/ stripped raw = STAR_MARK ++ text.

(** [raw] is a heading line of level [n] with the heading text [text]:
    once stripped it is [n] hashes, a space and [text], for [n] from 1
    to 3. *)
Definition heading_line (raw : pystr) (n : nat) (text : pystr) : Prop :=
  (1 <= n <= 3)%nat /\ stripped raw = repeat 35%N n ++ 32%N :: text.

(** The blocks a flush of the pending bullets [buf] appends. *)
Definition flush_blocks (f : string) (buf : list pystr) : list Flowable :=
  match buf with
  | [] => []
  | _ :: _ =>
      [ListFlowable (map (fun x => ListItem_Paragraph x (normal f)) buf) 12;
       Spacer 1 4]
  end.

(* ================================================================= *)
(** ** Notions for the properties of the reader and of the loop *)

(** A line holds no line terminator. *)
Definition newline_free (l : pystr) : bool :=
  forallb (fun c => negb (N.eqb c LF || N.eqb c CR)) l.

(** The three line terminators that text mode accepts. *)
Inductive Newline := NL_LF | NL_CRLF | NL_CR.

Definition newline_chars (nl : Newline) : pystr :=
  match nl with
  | NL_LF => [LF]
  | NL_CRLF => [CR; LF]
  | NL_CR => [CR]
  end.

(** A file written line by line, each line followed by its terminator. *)
Definition write_lines (nl : Newline) (lines : list pystr) : pystr :=
  flat_map (fun l => l ++ newline_chars nl) lines.

(** The number of fence lines among [lines]. *)
Definition fence_count (lines : list pystr) : nat :=
  List.length (filter is_fence lines).

(** [n] byte-order marks in a row. *)
Definition boms (n : nat) : pystr := repeat BOM n.

(** The size the story will have once the pending bullets are flushed. *)
Definition flushed_size (st : State) : nat :=
  List.length (story st) +
  match bullet_buf st with [] => 0 | _ :: _ => 2 end.

(** Every list block of a story has an item and is directly followed by
    the spacer of height 4. *)
Fixpoint lists_closed (s : list Flowable) : bool :=
  match s with
  | [] => true
  | ListFlowable items _ :: rest =>
      match items with [] => false | _ :: _ => true end &&
      match rest with
      | Spacer w h :: _ => Z.eqb w 1 && Z.eqb h 4
      | _ => false
      end &&
      lists_closed rest
  | _ :: rest => lists_closed rest
  end.

(** A block as the loop builds them, for the font family [f]. *)
Definition block_ok (f : string) (b : Flowable) : Prop :=
  match b with
  | Paragraph _ s => s = normal f \/ s = h1 f \/ s = h2 f \/ s = h3 f
  | Spacer w h => w = 1%Z /\ (h = 4%Z \/ h = 6%Z)
  | ListFlowable items indent =>
      indent = 12%Z /\
      Forall (fun i => match i with ListItem_Paragraph _ s => s = normal f end)
             items
  | Preformatted _ s => s = code f
  end.

(** A batch machine: docs/ holds a.md, bad.md (unreadable) and c.md; the
    font side is [env_noto]; directories can be made and documents laid
    out. *)
Definition host_demo : Host :=
  {| host_env := env_noto;
     sep := "/";
     glob := fun dir pattern =>
       if path_eqb dir ["docs"%string] && String.eqb pattern "*.md"
       then ["a.md"; "bad.md"; "c.md"]%string else [];
     read_text := fun p =>
       if path_eqb p ["docs"; "bad.md"]%string then Raised "UnicodeDecodeError"
       else Ok (py "# Title");
     mkdir := fun _ => Ok tt;
     doc_build := fun _ _ => Ok tt |}.

(* ================================================================= *)
(** * Properties *)

(** ** Strings *)

Lemma lstrip_snoc_keep (chars : pystr) (c : char) (s : pystr) :
  mem c chars = false -> lstrip chars (s ++ [c]) = lstrip chars s ++ [c].
Proof.
  intros Hc. induction s as [|d s IH]; simpl.
  - now rewrite Hc.
  - destruct (mem d chars); [exact IH | reflexivity].
Qed.

Lemma rstrip_cons_keep (chars : pystr) (c : char) (s : pystr) :
  mem c chars = false -> rstrip chars (c :: s) = c :: rstrip chars s.
Proof.
  intros Hc. unfold rstrip. simpl rev.
  rewrite lstrip_snoc_keep by exact Hc.
  now rewrite rev_app_distr.
Qed.

(** Stripping the byte-order marks leaves a line that begins with another
    character where it begins. *)
Lemma stripped_cons_keep (c : char) (s : pystr) :
  N.eqb c BOM = false -> stripped (c :: s) = c :: rstrip [BOM] s.
Proof.
  intros Hc. unfold stripped, strip. simpl lstrip.
  rewrite Hc. simpl. apply rstrip_cons_keep. simpl. now rewrite Hc.
Qed.

Lemma startswith_split (p s : pystr) :
  startswith s p = true -> s = p ++ skipn (List.length p) s.
Proof.
  revert s. induction p as [|c p IH]; intros s H; simpl in *; [reflexivity|].
  destruct s as [|d s]; [discriminate|].
  apply andb_true_iff in H as [Hd Hs]. apply N.eqb_eq in Hd. subst d.
  f_equal. now apply IH.
Qed.

Lemma all_space_no_pipe (s : pystr) :
  forallb isspace s = true -> contains [PIPE] s = false.
Proof.
  induction s as [|d s IH]; simpl; [reflexivity|].
  intros H. apply andb_true_iff in H as [Hd Hs].
  rewrite (IH Hs).
  destruct (N.eqb d PIPE) eqn:E; [|reflexivity].
  apply N.eqb_eq in E. subst d. discriminate Hd.
Qed.

(** ** One line at a time *)

Section StepFacts.

Variable f : string.

Lemma flush_bullets_empty (st : State) :
  bullet_buf st = [] -> flush_bullets f st = st.
Proof. intros H. unfold flush_bullets. now rewrite H. Qed.

Lemma flush_bullets_buf (st : State) : bullet_buf (flush_bullets f st) = [].
Proof. unfold flush_bullets. destruct (bullet_buf st) eqn:E; [exact E | reflexivity]. Qed.

Lemma flush_bullets_in_code (st : State) :
  in_code (flush_bullets f st) = in_code st.
Proof. unfold flush_bullets. now destruct (bullet_buf st). Qed.

(** A fence line in Normal mode. *)
Lemma step_open_fence (st : State) (raw : pystr) :
  is_fence raw = true -> in_code st = false ->
  step f st raw =
  {| story := story (flush_bullets f st); bullet_buf := [];
     in_code := true; code_buf := [] |}.
Proof.
  unfold is_fence, stripped, step. intros Hf Hc.
  rewrite Hf, Hc. simpl. now rewrite flush_bullets_buf.
Qed.

(** A fence line in InCode mode. *)
Lemma step_close_fence (st : State) (raw : pystr) :
  is_fence raw = true -> in_code st = true ->
  step f st raw =
  {| story := story st ++ [Preformatted (join [LF] (code_buf st)) (code f);
                           Spacer 1 6];
     bullet_buf := bullet_buf st; in_code := false; code_buf := code_buf st |}.
Proof.
  unfold is_fence, stripped, step. intros Hf Hc. now rewrite Hf, Hc.
Qed.

(** Any other line in InCode mode. *)
Lemma step_code_line (st : State) (raw : pystr) :
  is_fence raw = false -> in_code st = true ->
  step f st raw =
  {| story := story st; bullet_buf := bullet_buf st;
     in_code := true; code_buf := code_buf st ++ [raw] |}.
Proof.
  unfold is_fence, stripped, step. intros Hf Hc. now rewrite Hf, Hc.
Qed.


Lemma step_blank (st : State) (raw : pystr) :
  in_code st = false -> is_blank raw = true ->
  step f st raw = append (flush_bullets f st) [Spacer 1 6].
Proof.
  unfold is_blank, stripped, step. intros Hc Hb.
  destruct (strip [BOM] raw); [|discriminate]. simpl. now rewrite Hc.
Qed.

Lemma step_bullet (st : State) (raw : pystr) :
  in_code st = false -> is_bullet raw = true ->
  step f st raw =
  {| story := story st;
     bullet_buf := bullet_buf st ++ [slice_from 2 (stripped raw)];
     in_code := false; code_buf := code_buf st |}.
Proof.
  unfold is_bullet, stripped, step. intros Hc Hb. rewrite Hc.
  destruct (strip [BOM] raw) as [|c l] eqn:E; [discriminate|].
  apply orb_true_iff in Hb.
  assert (Hc1 : c = 45%N \/ c = 42%N).
  { destruct Hb as [Hb|Hb]; simpl in Hb;
      apply andb_true_iff in Hb as [Hb _]; apply N.eqb_eq in Hb; auto. }
  assert (Hno : startswith (c :: l) FENCE = false /\
                startswith (c :: l) H1_MARK = false /\
                startswith (c :: l) H2_MARK = false /\
                startswith (c :: l) H3_MARK = false).
  { destruct Hc1; subst c; repeat split; reflexivity. }
  destruct Hno as (-> & -> & -> & ->).
  apply orb_true_iff in Hb. rewrite Hb. reflexivity.
Qed.

Lemma step_heading (st : State) (raw : pystr) (n : nat) :
  in_code st = false -> heading_level raw = Some n ->
  step f st raw =
  append (flush_bullets f st)
    [Paragraph (slice_from (S n) (stripped raw))
       (match n with 1 => h1 f | 2 => h2 f | _ => h3 f end)].
Proof.
  unfold heading_level, stripped, step. intros Hc Hh. rewrite Hc.
  destruct (strip [BOM] raw) as [|c l] eqn:E; [discriminate|].
  assert (Hf : startswith (c :: l) FENCE = false).
  { destruct (startswith (c :: l) H1_MARK) eqn:E1;
    [|destruct (startswith (c :: l) H2_MARK) eqn:E2;
      [|destruct (startswith (c :: l) H3_MARK) eqn:E3; [|discriminate]]];
    simpl in *;
    match goal with
    | H : (N.eqb c ?k && _)%bool = true |- _ =>
        apply andb_true_iff in H as [H _]; apply N.eqb_eq in H; subst c
    end; reflexivity. }
  rewrite Hf.
  destruct (startswith (c :: l) H1_MARK);
    [injection Hh as <-; reflexivity|].
  destruct (startswith (c :: l) H2_MARK);
    [injection Hh as <-; reflexivity|].
  destruct (startswith (c :: l) H3_MARK);
    [injection Hh as <-; reflexivity|discriminate].
Qed.


Lemma step_paragraph (st : State) (raw : pystr) :
  in_code st = false -> is_fence raw = false -> is_blank raw = false ->
  heading_level raw = None -> is_bullet raw = false ->
  is_table_like raw = false ->
  step f st raw =
  append (flush_bullets f st) [Paragraph (stripped raw) (normal f)].
Proof.
  unfold is_fence, is_blank, heading_level, is_bullet, is_table_like,
    stripped, step.
  intros Hc Hf Hb Hh Hbu Ht. rewrite Hf, Hc.
  destruct (strip [BOM] raw) as [|c l]; [discriminate|].
  destruct (startswith (c :: l) H1_MARK); [discriminate|].
  destruct (startswith (c :: l) H2_MARK); [discriminate|].
  destruct (startswith (c :: l) H3_MARK); [discriminate|].
  now rewrite Hbu, Ht.
Qed.

End StepFacts.

(** ** Runs of lines *)

Section RunFacts.

Variable f : string.

Lemma run_app (st : State) (a b : list pystr) :
  run f st (a ++ b) = run f (run f st a) b.
Proof. apply fold_left_app. Qed.

Lemma run_snoc (st : State) (a : list pystr) (raw : pystr) :
  run f st (a ++ [raw]) = step f (run f st a) raw.
Proof. now rewrite run_app. Qed.

Lemma flush_bullets_idem (st : State) :
  flush_bullets f (flush_bullets f st) = flush_bullets f st.
Proof. apply flush_bullets_empty, flush_bullets_buf. Qed.

(** The mode after a line: a fence line toggles it, no other line
    touches it. *)
Lemma step_in_code (st : State) (raw : pystr) :
  in_code (step f st raw) =
  if is_fence raw then negb (in_code st) else in_code st.
Proof.
  unfold is_fence, stripped, step.
  destruct (startswith (strip [BOM] raw) FENCE).
  - now destruct (in_code st).
  - destruct (in_code st) eqn:Hc; [reflexivity|].
    destruct (strip [BOM] raw) as [|c l];
      [unfold append; simpl; now rewrite flush_bullets_in_code|].
    repeat match goal with
    | |- context [if ?b then _ else _] => destruct b
    end; unfold append; simpl in_code;
      rewrite ?flush_bullets_in_code; auto.
Qed.

(** Lines inside a fence pile up in [code_buf], untouched. *)
Lemma run_code_lines (body : list pystr) (st : State) :
  in_code st = true -> Forall (fun r => is_fence r = false) body ->
  run f st body =
  {| story := story st; bullet_buf := bullet_buf st;
     in_code := true; code_buf := code_buf st ++ body |}.
Proof.
  revert st. induction body as [|raw body IH]; intros st Hc Hall; simpl.
  - rewrite app_nil_r. destruct st; simpl in *. now subst.
  - inversion Hall as [|? ? Hraw Hbody]; subst.
    rewrite (step_code_line f st raw Hraw Hc).
    rewrite IH by (simpl; auto). simpl.
    now rewrite <- app_assoc.
Qed.

(** Bullet lines pile up in [bullet_buf]; nothing is emitted. *)
Lemma run_bullets (bs : list pystr) (st : State) :
  in_code st = false -> Forall (fun r => is_bullet r = true) bs ->
  run f st bs =
  {| story := story st;
     bullet_buf := bullet_buf st ++ map (fun r => slice_from 2 (stripped r)) bs;
     in_code := false; code_buf := code_buf st |}.
Proof.
  revert st. induction bs as [|raw bs IH]; intros st Hc Hall; simpl.
  - rewrite app_nil_r. destruct st; simpl in *. now subst.
  - inversion Hall as [|? ? Hraw Hbs]; subst.
    rewrite (step_bullet f st raw Hc Hraw).
    rewrite IH by (simpl; auto). simpl.
    now rewrite <- app_assoc.
Qed.

(** Every line of Normal mode that is not a bullet line starts by
    flushing the pending bullets. *)
Lemma step_nonbullet_flushes (st : State) (raw : pystr) :
  in_code st = false -> is_bullet raw = false ->
  step f st raw = step f (flush_bullets f st) raw.
Proof.
  unfold is_bullet, stripped, step. intros Hc Hb.
  rewrite flush_bullets_in_code, Hc, flush_bullets_idem.
  destruct (startswith (strip [BOM] raw) FENCE); [reflexivity|].
  destruct (strip [BOM] raw) as [|c l]; [reflexivity|].
  rewrite Hb. reflexivity.
Qed.


(** What the story is when the document stops inside a fence. *)
Lemma run_open_fence (pre body : list pystr) (fence : pystr) (st : State) :
  in_code (run f st pre) = false -> is_fence fence = true ->
  Forall (fun r => is_fence r = false) body ->
  run f st (pre ++ fence :: body) =
  {| story := story (flush_bullets f (run f st pre)); bullet_buf := [];
     in_code := true; code_buf := body |}.
Proof.
  intros Hpre Hfence Hbody. rewrite run_app. simpl.
  change (fold_left (step f) body ?s) with (run f s body).
  rewrite (step_open_fence f _ fence Hfence Hpre).
  now rewrite run_code_lines.
Qed.

End RunFacts.

(** ** The font family and the structure of the story *)

Lemma erase_font_idem (b : Flowable) : erase_font (erase_font b) = erase_font b.
Proof.
  destruct b as [t s|w h|items i|t s]; simpl; try reflexivity.
  f_equal. rewrite map_map. apply map_ext. now intros [t s].
Qed.

Lemma map_erase_font_idem (l : list Flowable) :
  map erase_font (map erase_font l) = map erase_font l.
Proof. rewrite map_map. apply map_ext, erase_font_idem. Qed.

Lemma erase_state_idem (st : State) :
  erase_state (erase_state st) = erase_state st.
Proof. unfold erase_state. simpl. now rewrite map_erase_font_idem. Qed.

Lemma erase_flush (f : string) (st : State) :
  erase_state (flush_bullets f st) =
  erase_state (flush_bullets "" (erase_state st)).
Proof.
  unfold flush_bullets, erase_state. simpl.
  destruct (bullet_buf st) as [|b buf] eqn:E; simpl.
  - now rewrite map_erase_font_idem, E.
  - rewrite !map_app, map_erase_font_idem. simpl.
    rewrite !map_map. reflexivity.
Qed.

Lemma erase_append (st : State) (blocks : list Flowable) :
  erase_state (append st blocks) =
  append (erase_state st) (map erase_font blocks).
Proof. unfold append, erase_state. simpl. now rewrite map_app. Qed.

Lemma erase_flush_append (f : string) (st : State) (b1 b2 : Flowable) :
  erase_font b1 = erase_font b2 ->
  erase_state (append (flush_bullets f st) [b1]) =
  erase_state (append (flush_bullets "" (erase_state st)) [b2]).
Proof.
  intros Hb. rewrite !erase_append. simpl. rewrite Hb.
  now rewrite erase_flush.
Qed.

Lemma erase_step (f : string) (st : State) (raw : pystr) :
  erase_state (step f st raw) = erase_state (step "" (erase_state st) raw).
Proof.
  unfold step.
  change (in_code (erase_state st)) with (in_code st).
  destruct (startswith (strip [BOM] raw) FENCE).
  - destruct (in_code st); simpl.
    + unfold erase_state. simpl.
      now rewrite !map_app, map_erase_font_idem.
    + pose proof (erase_flush f st) as H.
      unfold erase_state in *. simpl in *.
      injection H as Hs Hb. now rewrite Hs, Hb.
  - destruct (in_code st) eqn:Hc.
    + unfold erase_state. simpl. now rewrite map_erase_font_idem.
    + destruct (strip [BOM] raw) as [|c l].
      * now apply erase_flush_append.
      * repeat match goal with
        | |- context [if ?b then _ else _] => destruct b
        end; try (now apply erase_flush_append).
        unfold erase_state. simpl. now rewrite map_erase_font_idem.
Qed.

Lemma erase_run (f g : string) (lines : list pystr) (st1 st2 : State) :
  erase_state st1 = erase_state st2 ->
  erase_state (run f st1 lines) = erase_state (run g st2 lines).
Proof.
  revert st1 st2. induction lines as [|raw lines IH]; intros st1 st2 H; simpl.
  - exact H.
  - apply IH. now rewrite (erase_step f), (erase_step g), H.
Qed.

(** The story with the font family blanked does not depend on the font
    family the styles were built with. *)
Lemma build_story_erase (f g : string) (lines : list pystr) :
  map erase_font (build_story f lines) = map erase_font (build_story g lines).
Proof.
  unfold build_story.
  change (map erase_font (story ?s)) with (story (erase_state s)).
  rewrite (erase_flush f), (erase_flush g).
  now rewrite (@erase_run f g lines init init eq_refl).
Qed.


Lemma block_of_erase (b : Flowable) : block_of (erase_font b) = block_of b.
Proof.
  destruct b as [t s|w h|items i|t s]; simpl; try reflexivity.
  f_equal. rewrite map_map. apply map_ext. now intros [t s].
Qed.

(** ** The font resolver *)

Section FontFacts.

Variable env : Env.

(** The inner loop: either one directory decides, by a font that loads or
    by a probe that raises, after directories that fail quietly; or all
    fail quietly and the loop ends. *)
Lemma load_font_dirs_sound (family file : string) (bases : list Path)
    (reg : Registry) :
  (exists before base after,
     bases = before ++ base :: after /\
     Forall (fun b => try_attempt env (family, path_div b file) = Ok None)
            before /\
     ((exists font,
         try_attempt env (family, path_div base file) = Ok (Some font) /\
         load_font_dirs env family file bases reg =
           (Ok (Some family), registerFont font reg)) \/
      (exists e,
         try_attempt env (family, path_div base file) = Raised e /\
         load_font_dirs env family file bases reg = (Raised e, reg)))) \/
  (Forall (fun b => try_attempt env (family, path_div b file) = Ok None) bases /\
   load_font_dirs env family file bases reg = (Ok None, reg)).
Proof.
  induction bases as [|base rest IH].
  - right. split; [constructor | reflexivity].
  - assert (Hskip :
      try_attempt env (family, path_div base file) = Ok None ->
      load_font_dirs env family file (base :: rest) reg =
      load_font_dirs env family file rest reg ->
      (exists before base0 after,
         base :: rest = before ++ base0 :: after /\
         Forall (fun b => try_attempt env (family, path_div b file) = Ok None)
                before /\
         ((exists font,
             try_attempt env (family, path_div base0 file) = Ok (Some font) /\
             load_font_dirs env family file (base :: rest) reg =
               (Ok (Some family), registerFont font reg)) \/
          (exists e,
             try_attempt env (family, path_div base0 file) = Raised e /\
             load_font_dirs env family file (base :: rest) reg = (Raised e, reg)))) \/
      (Forall (fun b => try_attempt env (family, path_div b file) = Ok None)
              (base :: rest) /\
       load_font_dirs env family file (base :: rest) reg = (Ok None, reg))).
    { intros Hq Hsame. rewrite Hsame.
      destruct IH as [(before & b0 & after & -> & Hb & Hdec) | (Hall & Hend)].
      - left. exists (base :: before), b0, after.
        split; [reflexivity|]. split; [now constructor | exact Hdec].
      - right. split; [now constructor | exact Hend]. }
    assert (Hta : try_attempt env (family, path_div base file) =
              match path_exists env (path_div base file) with
              | Raised e => Raised e
              | Ok false => Ok None
              | Ok true =>
                  match TTFont env family (path_div base file) with
                  | Ok font => Ok (Some font)
                  | Raised _ => Ok None
                  end
              end) by reflexivity.
    assert (Hrun : load_font_dirs env family file (base :: rest) reg =
              match path_exists env (path_div base file) with
              | Raised e => (Raised e, reg)
              | Ok false => load_font_dirs env family file rest reg
              | Ok true =>
                  match TTFont env family (path_div base file) with
                  | Ok font => (Ok (Some family), registerFont font reg)
                  | Raised _ => load_font_dirs env family file rest reg
                  end
              end) by reflexivity.
    destruct (path_exists env (path_div base file)) as [[|]|e].
    + destruct (TTFont env family (path_div base file)) as [font|e].
      * left. exists [], base, rest. split; [reflexivity|].
        split; [constructor|]. left. exists font. auto.
      * now apply Hskip.
    + now apply Hskip.
    + left. exists [], base, rest. split; [reflexivity|].
      split; [constructor|]. right. exists e. auto.
Qed.

Lemma search_dirs_cwd (c : Path) :
  cwd env = Ok c -> search_dirs env = Ok (search_dirs_in c).
Proof. unfold search_dirs. now intros ->. Qed.

(** The two loops together, when [Path.cwd()] returns [c]: the first
    attempt that does not fail quietly decides. *)
Lemma load_font_candidates_sound (c : Path) (cands : list (string * string))
    (reg : Registry) :
  cwd env = Ok c ->
  (exists before a after,
     attempts_of c cands = before ++ a :: after /\
     Forall (fun a0 => try_attempt env a0 = Ok None) before /\
     ((exists font,
         try_attempt env a = Ok (Some font) /\
         load_font_candidates env cands reg =
           (Ok (fst a), registerFont font reg)) \/
      (exists e,
         try_attempt env a = Raised e /\
         load_font_candidates env cands reg = (Raised e, reg)))) \/
  (Forall (fun a0 => try_attempt env a0 = Ok None) (attempts_of c cands) /\
   load_font_candidates env cands reg = (Ok "Helvetica"%string, reg)).
Proof.
  intros Hcwd. unfold attempts_of.
  induction cands as [|[family file] rest IH];
    cbn [load_font_candidates flat_map fst snd].
  - right. split; [constructor | reflexivity].
  - rewrite (search_dirs_cwd c Hcwd).
    destruct (load_font_dirs_sound family file (search_dirs_in c) reg)
      as [(before & base & after & Hsplit & Hb & Hdec) | (Hall & Hend)].
    + left.
      exists (map (fun b => (family, path_div b file)) before),
             (family, path_div base file),
             (map (fun b => (family, path_div b file)) after ++
              flat_map (fun cand => map (fun b => (fst cand, path_div b (snd cand)))
                                        (search_dirs_in c)) rest).
      split; [rewrite Hsplit, map_app; simpl; now rewrite <- app_assoc|].
      split; [apply Forall_map; exact Hb|].
      destruct Hdec as [(font & Hok & Hrun) | (e & Hraise & Hrun)];
        rewrite Hrun; [left; exists font | right; exists e]; auto.
    + rewrite Hend.
      assert (Hpre : Forall (fun a0 => try_attempt env a0 = Ok None)
                (map (fun b => (family, path_div b file)) (search_dirs_in c))).
      { apply Forall_map. exact Hall. }
      destruct IH as [(before & a & after & Hsplit & Hb & Hdec) | (Hnone & Hrun)].
      * left.
        exists (map (fun b => (family, path_div b file)) (search_dirs_in c) ++ before),
               a, after.
        split; [rewrite Hsplit; now rewrite <- app_assoc|].
        split; [apply Forall_app; split; assumption | exact Hdec].
      * right. split; [apply Forall_app; split; assumption | exact Hrun].
Qed.

(** When [Path.cwd()] raises, the resolver raises at once. *)
Lemma load_font_cwd_raises (e : string) (reg : Registry) :
  cwd env = Raised e -> load_font env reg = (Raised e, reg).
Proof.
  intros Hcwd. unfold load_font, candidates.
  cbn [load_font_candidates]. unfold search_dirs. now rewrite Hcwd.
Qed.

(** What the resolver does to the registry does not depend on what the
    registry holds: it stores one font under its name, or nothing. *)
Lemma load_font_dirs_effect (family file : string) (bases : list Path) :
  exists r effect,
    ((effect = None /\ (r = Ok None \/ exists e, r = Raised e)) \/
     (exists p, r = Ok (Some family) /\
                effect = Some {| face := family; font_file := p |})) /\
    forall reg,
      load_font_dirs env family file bases reg =
      (r, match effect with
          | Some font => registerFont font reg
          | None => reg
          end).
Proof.
  induction bases as [|base rest IH].
  - exists (Ok None), None. split; [left; auto | reflexivity].
  - cbn [load_font_dirs].
    destruct (path_exists env (path_div base file)) as [[|]|e].
    + unfold TTFont.
      destruct (TTFont_parse env family (path_div base file)) as [u|e];
        cbn [bind]; [|exact IH].
      exists (Ok (Some family)),
             (Some {| face := family; font_file := path_div base file |}).
      split; [right; eauto | reflexivity].
    + exact IH.
    + exists (Raised e), None. split; [left; eauto | reflexivity].
Qed.

Lemma load_font_candidates_effect (cands : list (string * string)) :
  exists r effect,
    ((effect = None /\ (r = Ok "Helvetica"%string \/ exists e, r = Raised e)) \/
     (exists fam p, r = Ok fam /\ In fam (map fst cands) /\
                    effect = Some {| face := fam; font_file := p |})) /\
    forall reg,
      load_font_candidates env cands reg =
      (r, match effect with
          | Some font => registerFont font reg
          | None => reg
          end).
Proof.
  induction cands as [|[family file] rest IH]; cbn [load_font_candidates].
  - exists (Ok "Helvetica"%string), None. split; [left; auto | reflexivity].
  - destruct (search_dirs env) as [bases|e].
    + destruct (load_font_dirs_effect family file bases)
        as (r & effect & Hshape & Hrun).
      destruct Hshape as [(-> & [-> | (e & ->)]) | (p & -> & ->)].
      * destruct IH as (r' & effect' & Hshape' & Hrun').
        exists r', effect'. split.
        -- destruct Hshape' as [H | (fam & p & -> & Hin & ->)];
             [now left | right].
           exists fam, p. repeat split; auto. now right.
        -- intros reg. now rewrite Hrun, Hrun'.
      * exists (Raised e), None. split; [left; eauto|].
        intros reg. now rewrite Hrun.
      * exists (Ok family), (Some {| face := family; font_file := p |}).
        split.
        -- right. exists family, p. repeat split; auto. now left.
        -- intros reg. now rewrite Hrun.
    + exists (Raised e), None. split; [left; eauto | reflexivity].
Qed.

Lemma dict_set_idem (k : string) (v : Font) (d : Registry) :
  dict_set k v (dict_set k v d) = dict_set k v d.
Proof.
  induction d as [|[k' v'] d IH]; simpl.
  - now rewrite String.eqb_refl.
  - destruct (String.eqb k' k) eqn:E; simpl.
    + now rewrite String.eqb_refl.
    + now rewrite E, IH.
Qed.

Lemma dict_get_set_same (k : string) (v : Font) (d : Registry) :
  dict_get k (dict_set k v d) = Some v.
Proof.
  induction d as [|[k' v'] d IH]; simpl.
  - now rewrite String.eqb_refl.
  - destruct (String.eqb k' k) eqn:E; simpl.
    + now rewrite String.eqb_refl.
    + now rewrite E.
Qed.

Lemma dict_get_set_other (k n : string) (v : Font) (d : Registry) :
  n <> k -> dict_get n (dict_set k v d) = dict_get n d.
Proof.
  intros Hn. apply String.eqb_neq in Hn.
  induction d as [|[k' v'] d IH]; simpl.
  - rewrite String.eqb_sym. now rewrite Hn.
  - destruct (String.eqb k' k) eqn:E; simpl.
    + apply String.eqb_eq in E. subst k'.
      rewrite String.eqb_sym. now rewrite Hn.
    + now rewrite IH.
Qed.

End FontFacts.

(** ** The loop and its exceptions *)

Section RaisingFacts.

Variable accepts : pystr -> ParagraphStyle -> bool.
Variable f : string.

Lemma new_items_spec (buf : list pystr) :
  new_items accepts f buf =
  if forallb (fun x => accepts x (normal f)) buf
  then Ok (map (fun x => ListItem_Paragraph x (normal f)) buf)
  else Raised "ValueError".
Proof.
  induction buf as [|x buf IH]; [reflexivity|].
  cbn [new_items forallb map]. destruct (accepts x (normal f)); [|reflexivity].
  rewrite IH. cbn [andb].
  now destruct (forallb (fun x0 => accepts x0 (normal f)) buf).
Qed.

(** The flush raises exactly when a pending item is refused, and
    otherwise does what [flush_bullets] says. *)
Lemma flush_bullets_r_spec (st : State) :
  flush_bullets_r accepts f st =
  if forallb (fun x => accepts x (normal f)) (bullet_buf st)
  then Ok (flush_bullets f st)
  else Raised "ValueError".
Proof.
  unfold flush_bullets_r, flush_bullets.
  destruct (bullet_buf st) as [|b buf] eqn:E; [reflexivity|].
  rewrite new_items_spec.
  now destruct (forallb (fun x => accepts x (normal f)) (b :: buf)).
Qed.

Lemma flush_bullets_r_empty (st : State) :
  bullet_buf st = [] -> flush_bullets_r accepts f st = Ok st.
Proof. unfold flush_bullets_r. now intros ->. Qed.

Lemma flush_bullets_r_flushed (st : State) :
  flush_bullets_r accepts f (flush_bullets f st) = Ok (flush_bullets f st).
Proof. apply flush_bullets_r_empty, flush_bullets_buf. Qed.



Lemma step_r_blank (st : State) (raw : pystr) :
  in_code st = false -> is_blank raw = true ->
  step_r accepts f st raw =
  (st' <- flush_bullets_r accepts f st ;; Ok (append st' [Spacer 1 6])).
Proof.
  unfold is_blank, stripped, step_r. intros Hc Hb.
  destruct (strip [BOM] raw); [|discriminate]. simpl. now rewrite Hc.
Qed.

Lemma step_r_bullet (st : State) (raw : pystr) :
  in_code st = false -> is_bullet raw = true ->
  step_r accepts f st raw = Ok (step f st raw).
Proof.
  intros Hc Hb. rewrite (step_bullet f st raw Hc Hb).
  unfold is_bullet, stripped in Hb. unfold step_r, stripped. rewrite Hc.
  destruct (strip [BOM] raw) as [|c l] eqn:E; [discriminate|].
  apply orb_true_iff in Hb.
  assert (Hc1 : c = 45%N \/ c = 42%N).
  { destruct Hb as [Hb|Hb]; simpl in Hb;
      apply andb_true_iff in Hb as [Hb _]; apply N.eqb_eq in Hb; auto. }
  assert (Hno : startswith (c :: l) FENCE = false /\
                startswith (c :: l) H1_MARK = false /\
                startswith (c :: l) H2_MARK = false /\
                startswith (c :: l) H3_MARK = false).
  { destruct Hc1; subst c; repeat split; reflexivity. }
  destruct Hno as (-> & -> & -> & ->).
  apply orb_true_iff in Hb. rewrite Hb. reflexivity.
Qed.

Lemma step_r_heading (st : State) (raw : pystr) (n : nat) :
  in_code st = false -> heading_level raw = Some n ->
  step_r accepts f st raw =
  (st' <- flush_bullets_r accepts f st ;;
   p <- new_Paragraph accepts (slice_from (S n) (stripped raw))
                      (heading_style f n) ;;
   Ok (append st' [p])).
Proof.
  unfold heading_level, stripped, step_r. intros Hc Hh. rewrite Hc.
  destruct (strip [BOM] raw) as [|c l] eqn:E; [discriminate|].
  assert (Hf : startswith (c :: l) FENCE = false).
  { destruct (startswith (c :: l) H1_MARK) eqn:E1;
    [|destruct (startswith (c :: l) H2_MARK) eqn:E2;
      [|destruct (startswith (c :: l) H3_MARK) eqn:E3; [|discriminate]]];
    simpl in *;
    match goal with
    | H : (N.eqb c ?k && _)%bool = true |- _ =>
        apply andb_true_iff in H as [H _]; apply N.eqb_eq in H; subst c
    end; reflexivity. }
  rewrite Hf.
  destruct (startswith (c :: l) H1_MARK);
    [injection Hh as <-; reflexivity|].
  destruct (startswith (c :: l) H2_MARK);
    [injection Hh as <-; reflexivity|].
  destruct (startswith (c :: l) H3_MARK);
    [injection Hh as <-; reflexivity|discriminate].
Qed.

Lemma step_r_table (st : State) (raw : pystr) :
  in_code st = false -> is_fence raw = false -> is_blank raw = false ->
  heading_level raw = None -> is_bullet raw = false ->
  is_table_like raw = true ->
  step_r accepts f st raw =
  (st' <- flush_bullets_r accepts f st ;;
   Ok (append st' [Preformatted raw (code f)])).
Proof.
  unfold is_fence, is_blank, heading_level, is_bullet, is_table_like,
    stripped, step_r.
  intros Hc Hf Hb Hh Hbu Ht. rewrite Hf, Hc.
  destruct (strip [BOM] raw) as [|c l]; [discriminate|].
  destruct (startswith (c :: l) H1_MARK); [discriminate|].
  destruct (startswith (c :: l) H2_MARK); [discriminate|].
  destruct (startswith (c :: l) H3_MARK); [discriminate|].
  now rewrite Hbu, Ht.
Qed.

Lemma step_r_paragraph (st : State) (raw : pystr) :
  in_code st = false -> is_fence raw = false -> is_blank raw = false ->
  heading_level raw = None -> is_bullet raw = false ->
  is_table_like raw = false ->
  step_r accepts f st raw =
  (st' <- flush_bullets_r accepts f st ;;
   p <- new_Paragraph accepts (stripped raw) (normal f) ;;
   Ok (append st' [p])).
Proof.
  unfold is_fence, is_blank, heading_level, is_bullet, is_table_like,
    stripped, step_r.
  intros Hc Hf Hb Hh Hbu Ht. rewrite Hf, Hc.
  destruct (strip [BOM] raw) as [|c l]; [discriminate|].
  destruct (startswith (c :: l) H1_MARK); [discriminate|].
  destruct (startswith (c :: l) H2_MARK); [discriminate|].
  destruct (startswith (c :: l) H3_MARK); [discriminate|].
  now rewrite Hbu, Ht.
Qed.

(** An iteration that returns leaves the state that [step] gives, and an
    iteration that raises raises [ValueError]. *)
Lemma step_r_cases (st : State) (raw : pystr) :
  step_r accepts f st raw = Ok (step f st raw) \/
  step_r accepts f st raw = Raised "ValueError".
Proof.
  unfold step_r, step, new_Paragraph.
  rewrite flush_bullets_r_spec.
  destruct (forallb (fun x => accepts x (normal f)) (bullet_buf st));
    destruct (startswith (strip [BOM] raw) FENCE), (in_code st),
             (strip [BOM] raw) as [|c l];
    cbn [negb bind];
    repeat match goal with
    | |- context [if ?b then _ else _] =>
        match type of b with bool => destruct b end
    end; cbn [bind]; auto.
Qed.

Lemma step_r_sound (st st' : State) (raw : pystr) :
  step_r accepts f st raw = Ok st' -> st' = step f st raw.
Proof.
  destruct (step_r_cases st raw) as [-> | ->]; [|discriminate].
  now intros [= <-].
Qed.

Lemma run_r_sound (lines : list pystr) (st st' : State) :
  run_r accepts f st lines = Ok st' -> st' = run f st lines.
Proof.
  revert st. induction lines as [|raw lines IH]; intros st; cbn [run_r].
  - now intros [= <-].
  - destruct (step_r accepts f st raw) as [s|e] eqn:E; [|discriminate].
    cbn [bind]. apply step_r_sound in E. subst s. apply IH.
Qed.

Lemma run_r_app (a b : list pystr) (st : State) :
  run_r accepts f st (a ++ b) =
  (s <- run_r accepts f st a ;; run_r accepts f s b).
Proof.
  revert st. induction a as [|raw a IH]; intros st; [reflexivity|].
  cbn [app run_r].
  destruct (step_r accepts f st raw) as [s|e]; [apply IH | reflexivity].
Qed.

(** A story that the loop produces is the story [build_story] gives. *)
Lemma build_story_r_sound (lines : list pystr) (blocks : list Flowable) :
  build_story_r accepts f lines = Ok blocks -> blocks = build_story f lines.
Proof.
  unfold build_story_r, build_story.
  destruct (run_r accepts f init lines) as [st|e] eqn:E; [|discriminate].
  apply run_r_sound in E. subst st. cbn [bind].
  rewrite flush_bullets_r_spec.
  destruct (forallb _ _); [|discriminate].
  now intros [= <-].
Qed.


Lemma run_r_bullets (bs : list pystr) (st : State) :
  in_code st = false -> Forall (fun r => is_bullet r = true) bs ->
  run_r accepts f st bs = Ok (run f st bs).
Proof.
  revert st. induction bs as [|raw bs IH]; intros st Hc Hall; [reflexivity|].
  inversion Hall as [|? ? Hraw Hbs]; subst.
  cbn [run_r]. rewrite (step_r_bullet st raw Hc Hraw). cbn [bind].
  apply IH; [|assumption].
  now rewrite (step_bullet f st raw Hc Hraw).
Qed.

(** A line of Normal mode that is not a bullet line flushes first. *)
Lemma step_r_nonbullet_flushes (st : State) (raw : pystr) :
  in_code st = false -> is_bullet raw = false ->
  step_r accepts f st raw =
  (st' <- flush_bullets_r accepts f st ;; step_r accepts f st' raw).
Proof.
  intros Hc Hb. rewrite flush_bullets_r_spec.
  destruct (forallb (fun x => accepts x (normal f)) (bullet_buf st)) eqn:Eok;
    cbn [bind].
  - unfold is_bullet, stripped in Hb. unfold step_r.
    rewrite flush_bullets_in_code, Hc, flush_bullets_r_flushed.
    rewrite flush_bullets_r_spec, Eok. cbn [negb bind].
    destruct (startswith (strip [BOM] raw) FENCE); [reflexivity|].
    destruct (strip [BOM] raw) as [|c l]; [reflexivity|].
    rewrite Hb. reflexivity.
  - unfold is_bullet, stripped in Hb. unfold step_r.
    rewrite Hc, flush_bullets_r_spec, Eok. cbn [negb bind].
    destruct (startswith (strip [BOM] raw) FENCE); [reflexivity|].
    destruct (strip [BOM] raw) as [|c l]; [reflexivity|].
    rewrite Hb.
    repeat match goal with
    | |- context [if ?b then _ else _] =>
        match type of b with bool => destruct b end
    end; reflexivity.
Qed.

End RaisingFacts.

(** With a parser that takes every text the loop never raises. *)
Lemma build_story_r_accepting (accepts : pystr -> ParagraphStyle -> bool)
    (f : string) (lines : list pystr) :
  (forall text style, accepts text style = true) ->
  build_story_r accepts f lines = Ok (build_story f lines).
Proof.
  intros Hall.
  assert (Hflush : forall st,
            flush_bullets_r accepts f st = Ok (flush_bullets f st)).
  { intros st. rewrite flush_bullets_r_spec.
    replace (forallb (fun x => accepts x (normal f)) (bullet_buf st)) with true;
      [reflexivity|].
    symmetry. apply forallb_forall. intros x _. apply Hall. }
  assert (Hstep : forall st raw, step_r accepts f st raw = Ok (step f st raw)).
  { intros st raw. unfold step_r, step, new_Paragraph.
    rewrite Hflush, !Hall. cbn [bind].
    destruct (startswith (strip [BOM] raw) FENCE), (in_code st),
             (strip [BOM] raw) as [|c l]; cbn [negb bind]; try reflexivity;
      repeat match goal with
      | |- context [if ?b then _ else _] =>
          match type of b with bool => destruct b end
      end; reflexivity. }
  assert (Hrun : forall st, run_r accepts f st lines = Ok (run f st lines)).
  { induction lines as [|raw lines IH]; intros st; [reflexivity|].
    cbn [run_r]. rewrite Hstep. cbn [bind]. apply IH. }
  unfold build_story_r, build_story. rewrite Hrun. cbn [bind].
  now rewrite Hflush.
Qed.

(* ================================================================= *)
(** * The claims *)

(** C1. Converting the text "# Title\n\nHello world\n- a\n- b\n\n```\ncode
    here\n```\n" gives exactly, in this order: the level-1 heading "Title", a
    spacer, the paragraph "Hello world", the list of "a" and "b", a spacer, a
    spacer, the code block "code here", a spacer. *)
Theorem example_document_story (f : string) :
  convert_story f example_text =
    [ Paragraph (py "Title") (h1 f);
      Spacer 1 6;
      Paragraph (py "Hello world") (normal f);
      ListFlowable [ListItem_Paragraph (py "a") (normal f);
                    ListItem_Paragraph (py "b") (normal f)] 12;
      Spacer 1 4;
      Spacer 1 6;
      Preformatted (py "code here") (code f);
      Spacer 1 6 ] /\
  map block_of (convert_story f example_text) =
    [ Heading 1 (py "Title"); BlockSpacer; BlockParagraph (py "Hello world");
      BlockList [py "a"; py "b"]; BlockSpacer; BlockSpacer;
      BlockCode (py "code here"); BlockSpacer ].
Proof. split; reflexivity. Qed.

(** In Normal mode with no bullet pending, a line that is not a bullet line
    appends only blocks of its own, none of them a list. *)
Lemma step_clean (f : string) (st : State) (raw : pystr) :
  in_code st = false -> bullet_buf st = [] -> is_bullet raw = false ->
  exists tail,
    story (step f st raw) = story st ++ tail /\
    existsb is_list_block tail = false /\
    bullet_buf (step f st raw) = [].
Proof.
  intros Hc Hbuf Hb.
  unfold is_bullet, stripped in Hb. unfold step.
  rewrite Hc, (flush_bullets_empty f st Hbuf).
  destruct (startswith (strip [BOM] raw) FENCE);
    [exists []; simpl; rewrite app_nil_r; auto|].
  destruct (strip [BOM] raw) as [|c l];
    [eexists; simpl; repeat split; try reflexivity; assumption|].
  rewrite Hb.
  repeat match goal with
  | |- context [if ?b then _ else _] => destruct b
  end; eexists; simpl; repeat split; try reflexivity; assumption.
Qed.

(** A run of bullet lines from Normal mode with no bullet pending. *)
Lemma bullet_run_from_clean (f : string) (st : State) (bs : list pystr) :
  in_code st = false -> bullet_buf st = [] -> bs <> [] ->
  Forall (fun r => is_bullet r = true) bs ->
  story (run f st bs) = story st /\
  (forall raw, is_bullet raw = false ->
     exists tail,
       story (step f (run f st bs) raw) =
         story st ++ [ListFlowable (map (bullet_item f) bs) 12; Spacer 1 4] ++ tail /\
       existsb is_list_block tail = false /\
       bullet_buf (step f (run f st bs) raw) = []) /\
  story (flush_bullets f (run f st bs)) =
    story st ++ [ListFlowable (map (bullet_item f) bs) 12; Spacer 1 4].
Proof.
  intros Hc Hbuf Hne Hall.
  pose proof (run_bullets f bs st Hc Hall) as Hrun.
  rewrite Hbuf in Hrun. simpl in Hrun.
  assert (Hflush : flush_bullets f (run f st bs) =
    {| story := story st ++
                [ListFlowable (map (bullet_item f) bs) 12; Spacer 1 4];
       bullet_buf := []; in_code := false; code_buf := code_buf st |}).
  { rewrite Hrun. unfold flush_bullets. simpl.
    destruct bs as [|b bs']; [contradiction|]. simpl.
    now rewrite map_map. }
  split; [now rewrite Hrun|]. split.
  - intros raw Hraw.
    assert (Hmode : in_code (run f st bs) = false) by now rewrite Hrun.
    rewrite (step_nonbullet_flushes f _ raw Hmode Hraw), Hflush.
    destruct (step_clean f
      {| story := story st ++
                  [ListFlowable (map (bullet_item f) bs) 12; Spacer 1 4];
         bullet_buf := []; in_code := false; code_buf := code_buf st |}
      raw eq_refl eq_refl Hraw) as (tail & Hstory & Hnolist & Hempty).
    exists tail. simpl in Hstory. rewrite Hstory, <- app_assoc. auto.
  - now rewrite Hflush.
Qed.

(** No bullet is pending while the loop is in InCode mode. *)
Lemma in_code_no_bullets (f : string) (lines : list pystr) :
  in_code (run f init lines) = true -> bullet_buf (run f init lines) = [].
Proof.
  induction lines as [|raw lines IH] using rev_ind; [discriminate|].
  rewrite run_snoc. intros Hend.
  pose proof (step_in_code f (run f init lines) raw) as Hmode.
  rewrite Hend in Hmode.
  destruct (is_fence raw) eqn:Hf.
  - symmetry in Hmode. apply negb_true_iff in Hmode.
    now rewrite (step_open_fence f _ raw Hf Hmode).
  - symmetry in Hmode.
    rewrite (step_code_line f _ raw Hf Hmode). simpl. now apply IH.
Qed.

(** No bullet is pending after a line that is not a bullet line. *)
Lemma no_bullets_after_other_line (f : string) (pre : list pystr) (raw : pystr) :
  is_bullet raw = false -> bullet_buf (run f init (pre ++ [raw])) = [].
Proof.
  intros Hraw. rewrite run_snoc.
  destruct (in_code (run f init pre)) eqn:Hc.
  - pose proof (in_code_no_bullets f pre Hc) as Hbuf.
    destruct (is_fence raw) eqn:Hf.
    + now rewrite (step_close_fence f _ raw Hf Hc).
    + now rewrite (step_code_line f _ raw Hf Hc).
  - rewrite (step_nonbullet_flushes f _ raw Hc Hraw).
    destruct (step_clean f (flush_bullets f (run f init pre)) raw)
      as (tail & _ & _ & Hempty); auto.
    + now rewrite flush_bullets_in_code.
    + apply flush_bullets_buf.
Qed.

Lemma bind_Ok_r {A : Type} (r : result A) : (x <- r ;; Ok x) = r.
Proof. now destruct r. Qed.

Lemma flush_bullets_story (f : string) (st : State) :
  flush_bullets f st =
  {| story := story st ++ flush_blocks f (bullet_buf st); bullet_buf := [];
     in_code := in_code st; code_buf := code_buf st |}.
Proof.
  unfold flush_bullets, flush_blocks.
  destruct (bullet_buf st) eqn:E; [|reflexivity].
  rewrite app_nil_r. destruct st; simpl in *. now subst.
Qed.

(** A bullet line by its text is a bullet line for the loop, and the item
    the loop keeps is that text. *)
Lemma bullet_line_facts (raw text : pystr) :
  bullet_line raw text ->
  is_bullet raw = true /\ slice_from 2 (stripped raw) = text.
Proof.
  unfold bullet_line, is_bullet. intros [-> | ->]; split; reflexivity.
Qed.

Lemma bullet_lines_facts (bs texts : list pystr) :
  Forall2 bullet_line bs texts ->
  Forall (fun r => is_bullet r = true) bs /\
  map (fun r => slice_from 2 (stripped r)) bs = texts.
Proof.
  induction 1 as [|raw text bs texts H _ [IH1 IH2]]; [split; constructor|].
  destruct (bullet_line_facts raw text H) as [Hb Ht].
  split; [now constructor | cbn [map]; now rewrite Ht, IH2].
Qed.

(** C2 as stated does not hold: the item of a bullet line is built by
    [Paragraph], which refuses "<b>x", so the flush raises and no list is
    emitted. *)
Lemma bullet_run_counterexample :
  bullet_line (py "- <b>x") (py "<b>x") /\
  build_story_r markup_strict "Helvetica" [py "- <b>x"] = Raised "ValueError".
Proof. split; [left; reflexivity | reflexivity]. Qed.

(** C2 (amended). Take a run of bullet lines that starts the document or
    follows a line that is not a bullet line, in Normal mode. While the run
    lasts nothing is emitted and nothing raised. At the first line after it
    that is not a bullet line (a blank line included), and at the end of the
    input, the pending items are built: when the layout library accepts
    every item text, exactly one list block is emitted, with one item per
    bullet line, each the text after the two-character marker of the
    stripped line, in order, followed by one spacer; when it refuses one,
    the conversion raises ValueError. Flushing an empty accumulator changes
    nothing. *)
Theorem bullet_run_one_list (accepts : pystr -> ParagraphStyle -> bool)
    (f : string) (pre bs texts : list pystr) (st : State) :
  run_r accepts f init pre = Ok st ->
  in_code st = false ->
  pre = [] \/ (exists pre' raw, pre = pre' ++ [raw] /\ is_bullet raw = false) ->
  bs <> [] ->
  Forall2 bullet_line bs texts ->
  run_r accepts f init (pre ++ bs) =
    Ok {| story := story st; bullet_buf := texts;
          in_code := false; code_buf := code_buf st |} /\
  (forall raw, is_bullet raw = false ->
     run_r accepts f init (pre ++ bs ++ [raw]) =
     if forallb (fun t => accepts t (normal f)) texts
     then step_r accepts f
            {| story := story st ++
                 [ListFlowable
                    (map (fun t => ListItem_Paragraph t (normal f)) texts) 12;
                  Spacer 1 4];
               bullet_buf := []; in_code := false; code_buf := code_buf st |}
            raw
     else Raised "ValueError") /\
  (forall raw st', is_bullet raw = false ->
     step_r accepts f
       {| story := story st ++
            [ListFlowable
               (map (fun t => ListItem_Paragraph t (normal f)) texts) 12;
             Spacer 1 4];
          bullet_buf := []; in_code := false; code_buf := code_buf st |}
       raw = Ok st' ->
     exists tail,
       story st' =
         story st ++
         [ListFlowable
            (map (fun t => ListItem_Paragraph t (normal f)) texts) 12;
          Spacer 1 4] ++ tail /\
       existsb is_list_block tail = false /\ bullet_buf st' = []) /\
  build_story_r accepts f (pre ++ bs) =
    (if forallb (fun t => accepts t (normal f)) texts
     then Ok (story st ++
              [ListFlowable
                 (map (fun t => ListItem_Paragraph t (normal f)) texts) 12;
               Spacer 1 4])
     else Raised "ValueError") /\
  (forall s, bullet_buf s = [] -> flush_bullets_r accepts f s = Ok s).
Proof.
  intros Hpre Hc Hstart Hne Hlines.
  pose proof (run_r_sound accepts f pre init st Hpre) as Hst.
  assert (Hbuf : bullet_buf st = []).
  { rewrite Hst.
    destruct Hstart as [-> | (pre' & raw & -> & Hraw)]; [reflexivity|].
    now apply no_bullets_after_other_line. }
  destruct (bullet_lines_facts bs texts Hlines) as [Hall Htexts].
  assert (Htne : texts <> []).
  { intros ->. destruct bs; [contradiction | discriminate]. }
  assert (Hrun : run_r accepts f init (pre ++ bs) =
            Ok {| story := story st; bullet_buf := texts;
                  in_code := false; code_buf := code_buf st |}).
  { rewrite run_r_app, Hpre. cbn [bind].
    rewrite (run_r_bullets accepts f bs st Hc Hall).
    rewrite (run_bullets f bs st Hc Hall), Hbuf, Htexts. reflexivity. }
  assert (Hflush : flush_bullets f
            {| story := story st; bullet_buf := texts;
               in_code := false; code_buf := code_buf st |} =
            {| story := story st ++
                 [ListFlowable
                    (map (fun t => ListItem_Paragraph t (normal f)) texts) 12;
                  Spacer 1 4];
               bullet_buf := []; in_code := false; code_buf := code_buf st |}).
  { rewrite flush_bullets_story. cbn [story bullet_buf in_code code_buf].
    unfold flush_blocks. destruct texts; [contradiction | reflexivity]. }
  split; [exact Hrun|]. split; [|split; [|split]].
  - intros raw Hraw.
    rewrite app_assoc, run_r_app, Hrun. cbn [bind run_r].
    rewrite bind_Ok_r.
    rewrite step_r_nonbullet_flushes by auto.
    rewrite flush_bullets_r_spec. cbn [bullet_buf].
    destruct (forallb (fun t => accepts t (normal f)) texts); [|reflexivity].
    cbn [bind]. now rewrite Hflush.
  - intros raw st' Hraw Hstep.
    apply step_r_sound in Hstep. subst st'.
    destruct (step_clean f
      {| story := story st ++
           [ListFlowable
              (map (fun t => ListItem_Paragraph t (normal f)) texts) 12;
            Spacer 1 4];
         bullet_buf := []; in_code := false; code_buf := code_buf st |}
      raw eq_refl eq_refl Hraw) as (tail & Hstory & Hnolist & Hempty).
    exists tail. cbn [story] in Hstory.
    rewrite Hstory, <- app_assoc. auto.
  - unfold build_story_r. rewrite Hrun. cbn [bind].
    rewrite flush_bullets_r_spec. cbn [bullet_buf].
    destruct (forallb (fun t => accepts t (normal f)) texts); [|reflexivity].
    cbn [bind]. now rewrite Hflush.
  - intros s. apply flush_bullets_r_empty.
Qed.

Lemma bullet_run_one_list_witness :
  build_story_r markup_strict "Helvetica"
    ([py "intro"] ++ [BOM :: py "- a"; py "* b"]) =
  Ok [ Paragraph (py "intro") (normal "Helvetica");
       ListFlowable [ListItem_Paragraph (py "a") (normal "Helvetica");
                     ListItem_Paragraph (py "b") (normal "Helvetica")] 12;
       Spacer 1 4 ].
Proof.
  destruct (bullet_run_one_list markup_strict "Helvetica" [py "intro"]
              [BOM :: py "- a"; py "* b"] [py "a"; py "b"]
              {| story := [Paragraph (py "intro") (normal "Helvetica")];
                 bullet_buf := []; in_code := false; code_buf := [] |})
    as (_ & _ & _ & H & _).
  - reflexivity.
  - reflexivity.
  - right. exists [], (py "intro"). split; reflexivity.
  - discriminate.
  - constructor; [left; reflexivity|].
    constructor; [right; reflexivity | constructor].
  - exact H.
Defined.

(** C3. In InCode mode, lines that are not fence markers are not looked
    at: whatever they contain, each raw line, leading whitespace included,
    is appended to the code accumulator and the story does not change; the
    closing fence then emits the accumulated lines as one block. *)
Theorem code_lines_verbatim (f : string) (st : State) (body : list pystr) :
  in_code st = true ->
  Forall (fun r => is_fence r = false) body ->
  run f st body =
    {| story := story st; bullet_buf := bullet_buf st;
       in_code := true; code_buf := code_buf st ++ body |} /\
  forall fence, is_fence fence = true ->
    story (step f (run f st body) fence) =
      story st ++ [Preformatted (join [LF] (code_buf st ++ body)) (code f);
                   Spacer 1 6].
Proof.
  intros Hc Hall.
  pose proof (run_code_lines f body st Hc Hall) as Hrun.
  split; [exact Hrun|].
  intros fence Hfence.
  rewrite (step_close_fence f _ fence Hfence) by now rewrite Hrun.
  now rewrite Hrun.
Qed.

Lemma code_lines_verbatim_witness :
  run "Helvetica"
      {| story := []; bullet_buf := []; in_code := true; code_buf := [] |}
      [py "# not a heading"; py "  - not a bullet"; py "| not | a | table |"; py ""] =
    {| story := []; bullet_buf := []; in_code := true;
       code_buf := [py "# not a heading"; py "  - not a bullet";
                    py "| not | a | table |"; py ""] |}.
Proof.
  apply (code_lines_verbatim "Helvetica"
           {| story := []; bullet_buf := []; in_code := true; code_buf := [] |}
           [py "# not a heading"; py "  - not a bullet";
            py "| not | a | table |"; py ""]);
    [reflexivity | repeat constructor].
Defined.

(** A line of whitespace only, and not empty, meets none of the conditions
    tested before the paragraph branch. *)
Lemma whitespace_line_unclassified (raw : pystr) :
  is_blank raw = false -> forallb isspace (stripped raw) = true ->
  is_fence raw = false /\ heading_level raw = None /\
  is_bullet raw = false /\ is_table_like raw = false.
Proof.
  unfold is_blank, is_fence, heading_level, is_bullet, is_table_like.
  destruct (stripped raw) as [|c l]; [discriminate|].
  intros _ Hall.
  rewrite (all_space_no_pipe _ Hall).
  simpl in Hall. apply andb_true_iff in Hall as [Hc _].
  assert (H96 : N.eqb c 96 = false).
  { destruct (N.eqb c 96) eqn:E; [|reflexivity].
    apply N.eqb_eq in E. subst c. discriminate Hc. }
  assert (H35 : N.eqb c 35 = false).
  { destruct (N.eqb c 35) eqn:E; [|reflexivity].
    apply N.eqb_eq in E. subst c. discriminate Hc. }
  assert (H45 : N.eqb c 45 = false).
  { destruct (N.eqb c 45) eqn:E; [|reflexivity].
    apply N.eqb_eq in E. subst c. discriminate Hc. }
  assert (H42 : N.eqb c 42 = false).
  { destruct (N.eqb c 42) eqn:E; [|reflexivity].
    apply N.eqb_eq in E. subst c. discriminate Hc. }
  simpl. rewrite H96, H35, H45, H42. simpl. auto.
Qed.

(** C4 as stated does not hold: "<b>bold" meets none of the earlier
    conditions, and [Paragraph] refuses it; the iteration raises and no
    block is emitted. *)
Lemma paragraph_fallthrough_counterexample :
  is_fence (py "<b>bold") = false /\ is_blank (py "<b>bold") = false /\
  heading_level (py "<b>bold") = None /\ is_bullet (py "<b>bold") = false /\
  is_table_like (py "<b>bold") = false /\
  step_r markup_strict "Helvetica" init (py "<b>bold") = Raised "ValueError".
Proof. repeat split; reflexivity. Qed.

(** C4 (amended). In Normal mode, a line that is no fence, not blank, no
    heading, no bullet and not table-like makes the loop flush the bullets
    and build one paragraph from the line as stripped (of byte-order marks,
    the only trimming the loop does). When the layout library accepts the
    pending items and the line, the story gains the list of the pending
    items with its spacer, if any is pending, and then exactly one paragraph
    block holding the stripped line; when it refuses one of them, the
    conversion raises ValueError. A line that is whitespace only once
    stripped, yet not empty, is such a line. *)
Theorem paragraph_fallthrough (accepts : pystr -> ParagraphStyle -> bool)
    (f : string) (st : State) (raw : pystr) :
  in_code st = false ->
  (is_fence raw = false /\ is_blank raw = false /\ heading_level raw = None /\
   is_bullet raw = false /\ is_table_like raw = false) \/
  (is_blank raw = false /\ forallb isspace (stripped raw) = true) ->
  step_r accepts f st raw =
  if forallb (fun x => accepts x (normal f)) (bullet_buf st) &&
     accepts (stripped raw) (normal f)
  then Ok {| story := story st ++ flush_blocks f (bullet_buf st) ++
                      [Paragraph (stripped raw) (normal f)];
             bullet_buf := []; in_code := false; code_buf := code_buf st |}
  else Raised "ValueError".
Proof.
  intros Hc Hline.
  assert (Hcls : is_fence raw = false /\ is_blank raw = false /\
                 heading_level raw = None /\ is_bullet raw = false /\
                 is_table_like raw = false).
  { destruct Hline as [H | (Hb & Hws)]; [exact H|].
    destruct (whitespace_line_unclassified raw Hb Hws) as (Hf & Hh & Hbu & Ht).
    auto. }
  destruct Hcls as (Hf & Hb & Hh & Hbu & Ht).
  rewrite (step_r_paragraph accepts f st raw Hc Hf Hb Hh Hbu Ht).
  rewrite flush_bullets_r_spec, flush_bullets_story. unfold new_Paragraph.
  destruct (forallb (fun x => accepts x (normal f)) (bullet_buf st));
    cbn [bind andb]; [|reflexivity].
  destruct (accepts (stripped raw) (normal f)); cbn [bind]; [|reflexivity].
  unfold append. cbn [story bullet_buf in_code code_buf].
  now rewrite Hc, <- app_assoc.
Qed.

Lemma paragraph_fallthrough_witness :
  step_r markup_strict "Helvetica"
    {| story := [Spacer 1 6]; bullet_buf := [py "a"; py "b"];
       in_code := false; code_buf := [] |}
    (BOM :: py "   ") =
  Ok {| story := [ Spacer 1 6;
                   ListFlowable
                     [ListItem_Paragraph (py "a") (normal "Helvetica");
                      ListItem_Paragraph (py "b") (normal "Helvetica")] 12;
                   Spacer 1 4;
                   Paragraph (py "   ") (normal "Helvetica") ];
        bullet_buf := []; in_code := false; code_buf := [] |}.
Proof.
  apply (paragraph_fallthrough markup_strict "Helvetica"
           {| story := [Spacer 1 6]; bullet_buf := [py "a"; py "b"];
              in_code := false; code_buf := [] |}
           (BOM :: py "   "));
    [reflexivity | right; split; reflexivity].
Defined.

(** The text handed to [Paragraph] keeps the whitespace of the line: only
    byte-order marks are removed. *)
Example paragraph_keeps_spaces :
  step "Helvetica" init (py "  x ") =
  append init [Paragraph (py "  x ") (normal "Helvetica")].
Proof. reflexivity. Qed.



Lemma heading_level_range (raw : pystr) (n : nat) :
  heading_level raw = Some n -> n = 1 \/ n = 2 \/ n = 3.
Proof.
  unfold heading_level.
  repeat match goal with
  | |- context [if ?b then _ else _] => destruct b
  end; intros H; try discriminate; injection H as <-; auto.
Qed.

Lemma block_of_heading (f : string) (raw : pystr) :
  heading_level raw <> None ->
  block_of (heading_flowable f raw) = heading_block raw.
Proof.
  unfold heading_flowable, heading_block. intros Hh.
  destruct (heading_level raw) as [n|] eqn:E; [|contradiction].
  destruct (heading_level_range raw n E) as [-> | [-> | ->]]; reflexivity.
Qed.

(** A raw line that begins with a heading marker is a heading line. *)
Lemma heading_level_of_prefix (raw : pystr) :
  startswith raw H1_MARK || startswith raw H2_MARK || startswith raw H3_MARK
    = true ->
  heading_level raw <> None.
Proof.
  intros H.
  assert (Hraw : exists m rest, raw = m ++ rest /\
                   (m = H1_MARK \/ m = H2_MARK \/ m = H3_MARK)).
  { apply orb_true_iff in H as [H|H]; [apply orb_true_iff in H as [H|H]|];
      apply startswith_split in H; eauto 6. }
  destruct Hraw as (m & rest & -> & [-> | [-> | ->]]);
    unfold heading_level, H1_MARK, H2_MARK, H3_MARK; simpl app;
    rewrite stripped_cons_keep by reflexivity;
    rewrite !rstrip_cons_keep by reflexivity;
    simpl; discriminate.
Qed.

(** Heading lines, from Normal mode with no bullet pending: one heading
    block each, in order. *)
Lemma run_headings (f : string) (lines : list pystr) (st : State) :
  in_code st = false -> bullet_buf st = [] ->
  Forall (fun r => heading_level r <> None) lines ->
  run f st lines = append st (map (heading_flowable f) lines).
Proof.
  revert st. induction lines as [|raw lines IH]; intros st Hc Hbuf Hall; simpl.
  - unfold append. rewrite app_nil_r. now destruct st.
  - inversion Hall as [|? ? Hraw Hrest]; subst.
    change (fold_left (step f) lines ?s) with (run f s lines).
    destruct (heading_level raw) as [n|] eqn:E; [|contradiction].
    rewrite (step_heading f st raw n Hc E), (flush_bullets_empty f st Hbuf).
    rewrite IH by (simpl; auto).
    unfold append, heading_flowable at 2. simpl. rewrite E, <- app_assoc.
    reflexivity.
Qed.

(** A heading line by its level and text is a heading line for the loop,
    and the text the loop takes is that text. *)
Lemma heading_line_facts (raw : pystr) (n : nat) (text : pystr) :
  heading_line raw n text ->
  heading_level raw = Some n /\ slice_from (S n) (stripped raw) = text.
Proof.
  unfold heading_line, heading_level. intros [Hn ->].
  destruct n as [|[|[|[|n]]]]; try lia; split; reflexivity.
Qed.

(** Every heading line of the loop is one by some level and text. *)
Lemma heading_level_line (raw : pystr) (n : nat) :
  heading_level raw = Some n ->
  heading_line raw n (slice_from (S n) (stripped raw)).
Proof.
  unfold heading_line, heading_level. intros H.
  destruct (startswith (stripped raw) H1_MARK) eqn:E1;
    [|destruct (startswith (stripped raw) H2_MARK) eqn:E2;
      [|destruct (startswith (stripped raw) H3_MARK) eqn:E3; [|discriminate]]];
    injection H as <-; (split; [lia|]);
    match goal with
    | E : startswith _ ?m = true |- _ => apply startswith_split in E; exact E
    end.
Qed.

(** Heading lines, from Normal mode with no bullet pending. *)
Lemma run_r_headings (accepts : pystr -> ParagraphStyle -> bool) (f : string)
    (lines : list pystr) (heads : list (nat * pystr)) (st : State) :
  in_code st = false -> bullet_buf st = [] ->
  Forall2 (fun raw h => heading_line raw (fst h) (snd h)) lines heads ->
  run_r accepts f st lines =
  if forallb (fun h => accepts (snd h) (heading_style f (fst h))) heads
  then Ok (append st (map (fun h => Paragraph (snd h) (heading_style f (fst h)))
                          heads))
  else Raised "ValueError".
Proof.
  intros Hc Hbuf Hall. revert st Hc Hbuf.
  induction Hall as [|raw [n text] lines heads Hline _ IH]; intros st Hc Hbuf.
  - simpl. unfold append. rewrite app_nil_r. now destruct st.
  - cbn [fst snd] in Hline.
    destruct (heading_line_facts raw n text Hline) as [Hlevel Htext].
    cbn [run_r forallb map fst snd].
    rewrite (step_r_heading accepts f st raw n Hc Hlevel), Htext.
    rewrite (flush_bullets_r_empty accepts f st Hbuf).
    unfold new_Paragraph. cbn [bind].
    destruct (accepts text (heading_style f n)); cbn [bind andb];
      [|reflexivity].
    rewrite IH by (simpl; auto).
    destruct (forallb _ heads); [|reflexivity].
    unfold append. simpl. now rewrite <- app_assoc.
Qed.

(** C6 as stated does not hold, twice: the text of the heading line
    "# <b>t" is refused by [Paragraph], so the conversion raises and gives no
    block; and the heading of a line that ends with a byte-order mark holds
    the remainder of the stripped line, not of the line. *)
Lemma headings_only_counterexample :
  heading_level (py "# <b>t") = Some 1%nat /\
  convert_story_r markup_strict "Helvetica" (py "# <b>t") = Raised "ValueError" /\
  convert_story_r markup_strict "Helvetica" (py "# T" ++ [BOM]) =
    Ok [Paragraph (py "T") (h1 "Helvetica")] /\
  slice_from 2 (py "# T" ++ [BOM]) <> py "T".
Proof. repeat split; try reflexivity. discriminate. Qed.

(** C6 (amended). For an input made of heading lines only, when the layout
    library accepts every heading text, the story holds exactly one heading
    block per line, in the order of the lines, each with the style of its
    level and, as content, what follows the marker in the line stripped of
    byte-order marks; when it refuses one, the conversion raises
    ValueError. The font size of level 1 is the largest and that of level 3
    the smallest of the three. *)
Theorem headings_only (accepts : pystr -> ParagraphStyle -> bool) (f : string)
    (text : pystr) (heads : list (nat * pystr)) :
  Forall2 (fun raw h => heading_line raw (fst h) (snd h)) (md_lines text) heads ->
  convert_story_r accepts f text =
    (if forallb (fun h => accepts (snd h) (heading_style f (fst h))) heads
     then Ok (map (fun h => Paragraph (snd h) (heading_style f (fst h))) heads)
     else Raised "ValueError") /\
  map block_of (map (fun h => Paragraph (snd h) (heading_style f (fst h))) heads) =
    map (fun h => Heading (fst h) (snd h)) heads /\
  (fontSize (h3 f) < fontSize (h2 f) < fontSize (h1 f))%Z.
Proof.
  intros Hall. split; [|split; [|simpl; lia]].
  - unfold convert_story_r, build_story_r.
    rewrite (run_r_headings accepts f (md_lines text) heads init
               eq_refl eq_refl Hall).
    destruct (forallb _ heads); [|reflexivity].
    cbn [bind]. now rewrite flush_bullets_r_empty.
  - rewrite map_map. apply Forall2_length in Hall as Hlen.
    clear Hlen. induction Hall as [|raw [n t] lines heads [Hn _] _ IH];
      [reflexivity|].
    cbn [map fst snd] in *. rewrite IH. f_equal.
    destruct n as [|[|[|[|n]]]]; try lia; reflexivity.
Qed.

Lemma headings_only_witness :
  convert_story_r markup_strict "Helvetica" (py "### c
# a
## b
") =
  Ok [ Paragraph (py "c") (h3 "Helvetica");
       Paragraph (py "a") (h1 "Helvetica");
       Paragraph (py "b") (h2 "Helvetica") ].
Proof.
  apply (headings_only markup_strict "Helvetica" (py "### c
# a
## b
") [(3%nat, py "c"); (1%nat, py "a"); (2%nat, py "b")]).
  repeat constructor; simpl; lia.
Defined.









(** The story that an unterminated fence leaves behind, on a sample. *)
Example unterminated_fence_story :
  convert_markdown_to_pdf env_bare [] (py "- a
```
dangling
") =
  (Ok [ListFlowable [ListItem_Paragraph (py "a") (normal "Helvetica")] 12;
       Spacer 1 4], []).
Proof. reflexivity. Qed.

(** C7. Two conversions of the same text give stories that differ at most
    in the font family of their styles: kinds, contents and order are the
    same whatever the machines and registries; when the resolver returns the
    same family, and so when machine and registry are the same, the stories
    are equal. *)
Theorem structure_independent_of_font (env1 env2 : Env) (reg1 reg2 : Registry)
    (text : pystr) (s1 s2 : list Flowable) (r1 r2 : Registry) :
  convert_markdown_to_pdf env1 reg1 text = (Ok s1, r1) ->
  convert_markdown_to_pdf env2 reg2 text = (Ok s2, r2) ->
  map erase_font s1 = map erase_font s2 /\
  map block_of s1 = map block_of s2 /\
  (fst (load_font env1 reg1) = fst (load_font env2 reg2) -> s1 = s2) /\
  (env1 = env2 -> reg1 = reg2 -> s1 = s2 /\ r1 = r2).
Proof.
  unfold convert_markdown_to_pdf. intros H1 H2.
  destruct (load_font env1 reg1) as [[fam1|e1] q1] eqn:L1; [|discriminate].
  destruct (load_font env2 reg2) as [[fam2|e2] q2] eqn:L2; [|discriminate].
  injection H1 as H1 <-. injection H2 as H2 <-.
  apply build_story_r_sound in H1, H2.
  change (build_story fam1 (md_lines text)) with (convert_story fam1 text) in H1.
  change (build_story fam2 (md_lines text)) with (convert_story fam2 text) in H2.
  subst s1 s2.
  assert (He : map erase_font (convert_story fam1 text) =
               map erase_font (convert_story fam2 text))
    by apply build_story_erase.
  split; [exact He|]. split; [|split].
  - assert (Hb : forall s, map block_of s = map block_of (map erase_font s)).
    { intros s. rewrite map_map. apply map_ext.
      intros b. now rewrite block_of_erase. }
    now rewrite (Hb (convert_story fam1 text)), (Hb (convert_story fam2 text)), He.
  - cbn [fst]. intros Hfam. injection Hfam as Hfam. now rewrite Hfam.
  - intros Henv Hreg. rewrite Henv, Hreg, L2 in L1.
    injection L1 as Hfam Hq. now rewrite Hfam, Hq.
Qed.

Lemma structure_independent_of_font_witness :
  map erase_font (convert_story "Helvetica" example_text) =
  map erase_font (convert_story "NotoSansTC" example_text).
Proof.
  apply (structure_independent_of_font env_bare env_noto [] [] example_text
           (convert_story "Helvetica" example_text)
           (convert_story "NotoSansTC" example_text)
           []
           [("NotoSansTC"%string,
             {| face := "NotoSansTC";
                font_file := ["srv"; "prompts"; "fonts";
                              "NotoSansTC-Regular.otf"]%string |})]);
    reflexivity.
Defined.

(** C8 as stated does not hold: the probes [p.exists()] and
    [Path.cwd()] are outside the [try], and what they raise leaves
    [load_font]. *)
Lemma load_font_counterexample :
  load_font env_locked [] = (Raised "PermissionError", []) /\
  load_font env_nocwd [] = (Raised "FileNotFoundError", []).
Proof. split; reflexivity. Qed.

(** C8 (amended). The resolver tries the candidates in the order of the
    table and, for each, the directories in their order. An attempt whose
    file is absent, or whose font fails to load, is passed over in silence.
    The first attempt whose file exists and whose font loads ends the
    search: its family is returned and its font registered. When every
    attempt fails in silence, "Helvetica" is returned and the registry is
    left alone. What [TTFont] raises is swallowed; what [Path.cwd()] or
    [p.exists()] raises is not: it leaves the resolver at that attempt, with
    the registry left alone. So the resolver does not raise as long as these
    two probes return. *)
Theorem load_font_first_success (env : Env) (reg : Registry) :
  match cwd env with
  | Raised e => load_font env reg = (Raised e, reg)
  | Ok c =>
      attempts c =
        [ ("MicrosoftJhengHei", ["C:"; "Windows"; "Fonts"; "msjh.ttc"]%string);
          ("MicrosoftJhengHei", (c ++ ["fonts"; "msjh.ttc"]%string)%list);
          ("MicrosoftJhengHei", (c ++ ["msjh.ttc"]%string)%list);
          ("MicrosoftJhengHei", ["C:"; "Windows"; "Fonts"; "msjh.ttf"]%string);
          ("MicrosoftJhengHei", (c ++ ["fonts"; "msjh.ttf"]%string)%list);
          ("MicrosoftJhengHei", (c ++ ["msjh.ttf"]%string)%list);
          ("NotoSansCJK",
           ["C:"; "Windows"; "Fonts"; "NotoSansCJK-Regular.ttc"]%string);
          ("NotoSansCJK", (c ++ ["fonts"; "NotoSansCJK-Regular.ttc"]%string)%list);
          ("NotoSansCJK", (c ++ ["NotoSansCJK-Regular.ttc"]%string)%list);
          ("NotoSansTC",
           ["C:"; "Windows"; "Fonts"; "NotoSansTC-Regular.otf"]%string);
          ("NotoSansTC", (c ++ ["fonts"; "NotoSansTC-Regular.otf"]%string)%list);
          ("NotoSansTC", (c ++ ["NotoSansTC-Regular.otf"]%string)%list) ]%string /\
      ((exists before a after,
          attempts c = before ++ a :: after /\
          Forall (fun a0 => try_attempt env a0 = Ok None) before /\
          ((exists font,
              path_exists env (snd a) = Ok true /\
              TTFont env (fst a) (snd a) = Ok font /\
              load_font env reg = (Ok (fst a), registerFont font reg)) \/
           (exists e,
              path_exists env (snd a) = Raised e /\
              load_font env reg = (Raised e, reg)))) \/
       (Forall (fun a0 => try_attempt env a0 = Ok None) (attempts c) /\
        load_font env reg = (Ok "Helvetica"%string, reg)))
  end /\
  ((exists c, cwd env = Ok c) ->
   (forall p, exists b, path_exists env p = Ok b) ->
   exists fam reg', load_font env reg = (Ok fam, reg')).
Proof.
  assert (Hmain :
    forall c, cwd env = Ok c ->
      (exists before a after,
          attempts c = before ++ a :: after /\
          Forall (fun a0 => try_attempt env a0 = Ok None) before /\
          ((exists font,
              path_exists env (snd a) = Ok true /\
              TTFont env (fst a) (snd a) = Ok font /\
              load_font env reg = (Ok (fst a), registerFont font reg)) \/
           (exists e,
              path_exists env (snd a) = Raised e /\
              load_font env reg = (Raised e, reg)))) \/
       (Forall (fun a0 => try_attempt env a0 = Ok None) (attempts c) /\
        load_font env reg = (Ok "Helvetica"%string, reg))).
  { intros c Hcwd.
    destruct (load_font_candidates_sound env c candidates reg Hcwd)
      as [(before & a & after & Hsplit & Hb & Hdec) | Hnone];
      [left | right; exact Hnone].
    exists before, a, after. split; [exact Hsplit|]. split; [exact Hb|].
    unfold try_attempt in Hdec.
    destruct Hdec as [(font & Hok & Hrun) | (e & Hraise & Hrun)].
    - left. exists font.
      destruct (path_exists env (snd a)) as [[|]|e]; try discriminate.
      destruct (TTFont env (fst a) (snd a)) as [font'|e]; [|discriminate].
      injection Hok as ->. auto.
    - right. exists e.
      destruct (path_exists env (snd a)) as [[|]|e']; try discriminate.
      + destruct (TTFont env (fst a) (snd a)); discriminate.
      + injection Hraise as ->. auto. }
  split.
  - destruct (cwd env) as [c|e] eqn:Hcwd.
    + split; [|now apply Hmain].
      unfold attempts, attempts_of, candidates, search_dirs_in, path_div.
      simpl. now rewrite <- !app_assoc.
    + now apply load_font_cwd_raises.
  - intros (c & Hcwd) Hprobe.
    destruct (Hmain c Hcwd)
      as [(before & a & after & _ & _ & [(font & _ & _ & Hrun) | (e & Hraise & _)])
         | (_ & Hrun)]; eauto.
    destruct (Hprobe (snd a)) as (b & Hb). congruence.
Qed.

(** The resolver on the two sample machines. *)
Example load_font_noto :
  load_font env_noto [] =
  (Ok "NotoSansTC"%string,
   [("NotoSansTC"%string,
     {| face := "NotoSansTC";
        font_file := ["srv"; "prompts"; "fonts"; "NotoSansTC-Regular.otf"]%string |})]).
Proof. reflexivity. Qed.

Example load_font_bare : load_font env_bare [] = (Ok "Helvetica"%string, []).
Proof. reflexivity. Qed.

(* ================================================================= *)
(** * Further properties *)

(** ** The reader *)

Lemma newline_free_Forall (l : pystr) :
  newline_free l = true <-> Forall (fun c => c <> LF /\ c <> CR) l.
Proof.
  unfold newline_free. rewrite forallb_forall, Forall_forall.
  split; intros H c Hin; specialize (H c Hin).
  - apply negb_true_iff, orb_false_iff in H as [H1 H2].
    apply N.eqb_neq in H1, H2. auto.
  - destruct H as [H1 H2]. apply N.eqb_neq in H1, H2.
    now rewrite H1, H2.
Qed.

Lemma lstrip_head_keep (chars s : pystr) :
  match s with [] => True | c :: _ => mem c chars = false end ->
  lstrip chars s = s.
Proof. destruct s as [|c s]; simpl; [reflexivity|]. now intros ->. Qed.

(** Stripping "\n" from the right of a line without "\n" does nothing, and
    removes the terminator of a terminated line. *)
Lemma rstrip_LF_free (l : pystr) :
  Forall (fun c => c <> LF) l -> rstrip [LF] l = l.
Proof.
  intros H. unfold rstrip. rewrite lstrip_head_keep; [apply rev_involutive|].
  apply Forall_rev in H. destruct (rev l) as [|c r]; [exact I|].
  inversion H as [|? ? Hc _]; subst. simpl.
  apply N.eqb_neq in Hc. now rewrite Hc.
Qed.

Lemma rstrip_LF_terminated (l : pystr) :
  Forall (fun c => c <> LF) l -> rstrip [LF] (l ++ [LF]) = l.
Proof.
  intros H. rewrite <- (rstrip_LF_free l H) at 2.
  unfold rstrip. rewrite rev_app_distr. reflexivity.
Qed.

Lemma file_iter_line (l rest cur : pystr) :
  Forall (fun c => c <> LF) l ->
  file_iter cur (l ++ LF :: rest) = (cur ++ l ++ [LF]) :: file_iter [] rest.
Proof.
  revert cur. induction l as [|c l IH]; intros cur H; simpl.
  - reflexivity.
  - inversion H as [|? ? Hc Hl]; subst.
    apply N.eqb_neq in Hc. rewrite Hc, IH by assumption.
    now rewrite <- app_assoc.
Qed.

Lemma file_iter_last (l cur : pystr) :
  Forall (fun c => c <> LF) l ->
  file_iter cur l = match cur ++ l with [] => [] | _ :: _ => [cur ++ l] end.
Proof.
  revert cur. induction l as [|c l IH]; intros cur H; simpl.
  - rewrite app_nil_r. now destruct cur.
  - inversion H as [|? ? Hc Hl]; subst.
    apply N.eqb_neq in Hc. rewrite Hc, IH by assumption.
    now rewrite <- app_assoc.
Qed.

Lemma universal_newlines_prefix (l rest : pystr) :
  Forall (fun c => c <> LF /\ c <> CR) l ->
  universal_newlines (l ++ rest) = l ++ universal_newlines rest.
Proof.
  induction l as [|c l IH]; intros H; [reflexivity|].
  inversion H as [|? ? [_ Hc] Hl]; subst.
  apply N.eqb_neq in Hc. simpl. rewrite Hc. now rewrite IH.
Qed.

(** What text mode makes of a file written line by line, whatever its
    terminator, with a last line that may lack one. *)
Lemma universal_newlines_written (nl : Newline) (lines : list pystr)
    (last : pystr) :
  Forall (fun l => newline_free l = true) lines -> newline_free last = true ->
  universal_newlines (write_lines nl lines ++ last) =
  write_lines NL_LF lines ++ last.
Proof.
  intros Hlines Hlast. induction Hlines as [|l lines Hl Hrest IH].
  - simpl. apply newline_free_Forall in Hlast.
    rewrite <- (app_nil_r last) at 1.
    rewrite universal_newlines_prefix by assumption.
    now rewrite app_nil_r.
  - apply newline_free_Forall in Hl.
    unfold write_lines in *. cbn [flat_map].
    rewrite <- !app_assoc, universal_newlines_prefix by assumption.
    f_equal.
    assert (Hhead : match flat_map (fun l0 => l0 ++ newline_chars nl) lines ++ last
                    with [] => True | d :: _ => nl = NL_CR -> N.eqb d LF = false end).
    { destruct lines as [|l1 lines'].
      - simpl. apply newline_free_Forall in Hlast.
        destruct last as [|d t]; [exact I|]. intros _.
        inversion Hlast as [|? ? [Hd _] _]; subst. now apply N.eqb_neq.
      - cbn [flat_map]. inversion Hrest as [|? ? Hl1 _]; subst.
        apply newline_free_Forall in Hl1.
        destruct l1 as [|c1 l1]; simpl.
        + destruct nl; simpl; intros H; try discriminate H; reflexivity.
        + intros _. inversion Hl1 as [|? ? [Hd _] _]; subst.
          now apply N.eqb_neq. }
    revert IH Hhead.
    generalize (flat_map (fun l0 => l0 ++ newline_chars nl) lines ++ last).
    generalize (flat_map (fun l0 => l0 ++ newline_chars NL_LF) lines ++ last).
    intros y x IH Hhead.
    destruct nl; simpl.
    + now rewrite IH.
    + now rewrite IH.
    + rewrite <- IH. destruct x as [|d t]; [reflexivity|].
      now rewrite (Hhead eq_refl).
Qed.

(** X1. A file written line by line, with "\n", "\r\n" or "\r" after each
    line, reads back as exactly those lines; a last line without terminator
    is one more line when it is not empty. *)
Theorem md_lines_write_lines (nl : Newline) (lines : list pystr)
    (last : pystr) :
  Forall (fun l => newline_free l = true) lines -> newline_free last = true ->
  md_lines (write_lines nl lines ++ last) =
  lines ++ match last with [] => [] | _ :: _ => [last] end.
Proof.
  intros Hlines Hlast. unfold md_lines.
  rewrite universal_newlines_written by assumption.
  assert (HlastLF : Forall (fun c => c <> LF) last).
  { apply newline_free_Forall in Hlast.
    eapply Forall_impl; [|exact Hlast]. now intros c [H _]. }
  induction Hlines as [|l lines Hl Hrest IH].
  - simpl. rewrite file_iter_last by assumption. simpl.
    destruct last as [|c t]; [reflexivity|].
    simpl map. now rewrite rstrip_LF_free.
  - assert (HlLF : Forall (fun c => c <> LF) l).
    { apply newline_free_Forall in Hl.
      eapply Forall_impl; [|exact Hl]. now intros c [H _]. }
    unfold write_lines in *. cbn [flat_map newline_chars].
    rewrite <- !app_assoc. cbn [app].
    rewrite file_iter_line by assumption. cbn [map app].
    rewrite rstrip_LF_terminated by assumption.
    f_equal. exact IH.
Qed.

Lemma md_lines_write_lines_witness :
  md_lines (write_lines NL_CRLF [py "# T"; py ""; py "- a"] ++ py "end") =
  [py "# T"; py ""; py "- a"] ++ [py "end"].
Proof.
  apply (md_lines_write_lines NL_CRLF [py "# T"; py ""; py "- a"] (py "end"));
    [repeat constructor | reflexivity].
Defined.

Lemma universal_newlines_no_CR (s : pystr) :
  Forall (fun c => c <> CR) (universal_newlines s).
Proof.
  assert (H : forall n s, (List.length s <= n)%nat ->
                Forall (fun c => c <> CR) (universal_newlines s)).
  { induction n as [|n IH]; intros [|c t] Hlen; simpl in *;
      try constructor; try lia.
    destruct (N.eqb c CR) eqn:Ec.
    - constructor; [discriminate|].
      destruct t as [|d t']; [constructor|].
      simpl in Hlen.
      destruct (N.eqb d LF); apply IH; simpl; lia.
    - constructor; [now apply N.eqb_neq | apply IH; lia]. }
  now apply (H (List.length s)).
Qed.

Lemma file_iter_shape (s cur : pystr) :
  Forall (fun c => c <> LF /\ c <> CR) cur ->
  Forall (fun c => c <> CR) s ->
  Forall (fun l => exists body,
            Forall (fun c => c <> LF /\ c <> CR) body /\
            (l = body \/ l = body ++ [LF]))
         (file_iter cur s).
Proof.
  revert cur. induction s as [|c t IH]; intros cur Hcur Hs; simpl.
  - destruct cur as [|c0 cur']; constructor; [|constructor].
    exists (c0 :: cur'). auto.
  - inversion Hs as [|? ? Hc Ht]; subst.
    destruct (N.eqb c LF) eqn:Ec.
    + apply N.eqb_eq in Ec. subst c. constructor.
      * exists cur. auto.
      * apply IH; [constructor | assumption].
    + apply IH; [|assumption].
      apply Forall_app. split; [assumption|].
      constructor; [|constructor]. split; [now apply N.eqb_neq | assumption].
Qed.

(** X2. Whatever the file holds, no line that [md_lines] yields contains a
    line feed or a carriage return. *)
Theorem md_lines_newline_free (text : pystr) :
  Forall (fun l => newline_free l = true) (md_lines text).
Proof.
  unfold md_lines. apply Forall_map.
  pose proof (file_iter_shape (universal_newlines text) []
                (Forall_nil _) (universal_newlines_no_CR text)) as H.
  eapply Forall_impl; [|exact H].
  intros l (body & Hbody & Hl).
  assert (HLF : Forall (fun c => c <> LF) body).
  { eapply Forall_impl; [|exact Hbody]. now intros c [Hc _]. }
  destruct Hl as [-> | ->].
  - rewrite rstrip_LF_free by assumption. now apply newline_free_Forall.
  - rewrite rstrip_LF_terminated by assumption. now apply newline_free_Forall.
Qed.

(** ** The loop: modes and fences *)

Lemma fence_count_cons (raw : pystr) (lines : list pystr) :
  fence_count (raw :: lines) =
  if is_fence raw then S (fence_count lines) else fence_count lines.
Proof. unfold fence_count. simpl. now destruct (is_fence raw). Qed.

Lemma run_in_code_parity (f : string) (lines : list pystr) (st : State) :
  in_code (run f st lines) = xorb (in_code st) (Nat.odd (fence_count lines)).
Proof.
  revert st. induction lines as [|raw lines IH]; intros st.
  - simpl. now destruct (in_code st).
  - unfold run in *. cbn [fold_left]. rewrite IH, step_in_code, fence_count_cons.
    destruct (is_fence raw); [|reflexivity].
    rewrite Nat.odd_succ, <- Nat.negb_odd.
    now destruct (in_code st), (Nat.odd (fence_count lines)).
Qed.

(** X3. The loop ends in InCode mode exactly when the document has an odd
    number of fence lines. *)
Theorem in_code_iff_odd_fences (f : string) (lines : list pystr) :
  in_code (run f init lines) = Nat.odd (fence_count lines).
Proof. now rewrite run_in_code_parity. Qed.



(** ** The loop: composition *)

(** What a line adds does not depend on the story built so far, nor, in
    Normal mode, on the code accumulator. *)
Lemma step_frame (f : string) (p : list Flowable) (st1 st2 : State)
    (raw : pystr) :
  story st1 = p ++ story st2 -> bullet_buf st1 = bullet_buf st2 ->
  in_code st1 = in_code st2 ->
  (in_code st1 = true -> code_buf st1 = code_buf st2) ->
  story (step f st1 raw) = p ++ story (step f st2 raw) /\
  bullet_buf (step f st1 raw) = bullet_buf (step f st2 raw) /\
  in_code (step f st1 raw) = in_code (step f st2 raw) /\
  (in_code (step f st1 raw) = true ->
   code_buf (step f st1 raw) = code_buf (step f st2 raw)).
Proof.
  destruct st1 as [s1 b1 c1 k1], st2 as [s2 b2 c2 k2].
  cbn [story bullet_buf in_code code_buf].
  intros -> -> -> Hk.
  assert (Hk' : c2 = true -> k1 = k2) by exact Hk. clear Hk.
  unfold step, flush_bullets, append.
  cbn [story bullet_buf in_code code_buf].
  destruct (startswith (strip [BOM] raw) FENCE).
  - destruct c2; cbn [negb story bullet_buf in_code code_buf].
    + rewrite (Hk' eq_refl), <- app_assoc.
      repeat split; auto; discriminate.
    + destruct b2; cbn [story bullet_buf in_code code_buf];
        rewrite <- ?app_assoc; repeat split; auto.
  - destruct c2.
    + rewrite (Hk' eq_refl). cbn [story bullet_buf in_code code_buf].
      repeat split; auto.
    + destruct (strip [BOM] raw) as [|c l].
      * destruct b2; cbn [story bullet_buf in_code code_buf];
          rewrite <- ?app_assoc; repeat split; auto; discriminate.
      * repeat match goal with
        | |- context [if ?b then _ else _] => destruct b
        end; destruct b2; cbn [story bullet_buf in_code code_buf];
          rewrite <- ?app_assoc; repeat split; auto; discriminate.
Qed.

Lemma run_frame (f : string) (p : list Flowable) (lines : list pystr)
    (st1 st2 : State) :
  story st1 = p ++ story st2 -> bullet_buf st1 = bullet_buf st2 ->
  in_code st1 = in_code st2 ->
  (in_code st1 = true -> code_buf st1 = code_buf st2) ->
  story (run f st1 lines) = p ++ story (run f st2 lines) /\
  bullet_buf (run f st1 lines) = bullet_buf (run f st2 lines) /\
  in_code (run f st1 lines) = in_code (run f st2 lines).
Proof.
  revert st1 st2. induction lines as [|raw lines IH]; intros st1 st2 Hs Hb Hc Hk.
  - simpl. auto.
  - unfold run in *. cbn [fold_left].
    destruct (step_frame f p st1 st2 raw Hs Hb Hc Hk) as (Hs' & Hb' & Hc' & Hk').
    now apply IH.
Qed.

Lemma flush_frame (f : string) (p : list Flowable) (st1 st2 : State) :
  story st1 = p ++ story st2 -> bullet_buf st1 = bullet_buf st2 ->
  story (flush_bullets f st1) = p ++ story (flush_bullets f st2).
Proof.
  unfold flush_bullets. intros Hs Hb. rewrite Hb.
  destruct (bullet_buf st2); simpl; rewrite Hs; [reflexivity|].
  now rewrite <- app_assoc.
Qed.

(** When no bullet is pending, or the lines to come do not start with a
    bullet line, flushing first changes nothing in the end. *)
Lemma run_flush_first (f : string) (st : State) (b : list pystr) :
  in_code st = false ->
  bullet_buf st = [] \/
    match b with [] => True | raw :: _ => is_bullet raw = false end ->
  flush_bullets f (run f st b) =
  flush_bullets f (run f (flush_bullets f st) b).
Proof.
  intros Hc [Hbuf | Hb].
  - now rewrite (flush_bullets_empty f st Hbuf).
  - destruct b as [|raw b']; simpl.
    + now rewrite flush_bullets_idem.
    + now rewrite (step_nonbullet_flushes f st raw Hc Hb).
Qed.

(** X5. The story of two documents put end to end is the story of the
    first followed by the story of the second, provided the first one ends
    in Normal mode and the seam does not join two bullet runs: no bullet is
    pending at the end of the first, or the second does not start with a
    bullet line. *)
Theorem build_story_app (f : string) (a b : list pystr) :
  in_code (run f init a) = false ->
  bullet_buf (run f init a) = [] \/
    match b with [] => True | raw :: _ => is_bullet raw = false end ->
  build_story f (a ++ b) = build_story f a ++ build_story f b.
Proof.
  intros Hc Hseam. unfold build_story.
  rewrite run_app, (run_flush_first f _ b Hc Hseam).
  destruct (run_frame f (story (flush_bullets f (run f init a))) b
              (flush_bullets f (run f init a)) init) as (Hs & Hb & _).
  - simpl. now rewrite app_nil_r.
  - apply flush_bullets_buf.
  - now rewrite flush_bullets_in_code.
  - rewrite flush_bullets_in_code, Hc. discriminate.
  - now apply flush_frame.
Qed.

Lemma build_story_app_witness :
  build_story "Helvetica" ([py "- a"; py "```"; py "x"; py "```"] ++
                           [py "- b"; py "# H"]) =
  build_story "Helvetica" [py "- a"; py "```"; py "x"; py "```"] ++
  build_story "Helvetica" [py "- b"; py "# H"].
Proof.
  apply (build_story_app "Helvetica" [py "- a"; py "```"; py "x"; py "```"]
           [py "- b"; py "# H"]);
    [reflexivity | left; reflexivity].
Defined.

(** Two bullet runs across the seam do merge into one list. *)
Example build_story_app_bullets_merge :
  build_story "Helvetica" ([py "- a"] ++ [py "- b"]) <>
  build_story "Helvetica" [py "- a"] ++ build_story "Helvetica" [py "- b"].
Proof. discriminate. Qed.

(** ** The loop: what the story is made of *)

Lemma flushed_size_flush (f : string) (st : State) :
  List.length (story (flush_bullets f st)) = flushed_size st.
Proof.
  unfold flush_bullets, flushed_size.
  destruct (bullet_buf st); cbn [story]; [lia|].
  rewrite length_app. simpl. lia.
Qed.

Lemma step_flushed_size (f : string) (st : State) (raw : pystr) :
  (flushed_size (step f st raw) <= flushed_size st + 2)%nat.
Proof.
  destruct st as [s b c k].
  unfold step, flush_bullets, append, flushed_size.
  destruct b as [|b0 b], c, (strip [BOM] raw) as [|ch l];
    cbn [negb app story bullet_buf in_code code_buf];
    repeat match goal with
    | |- context [if ?x then _ else _] =>
        match type of x with bool => destruct x end
    end;
    cbn [negb app story bullet_buf in_code code_buf];
    rewrite ?length_app; simpl; lia.
Qed.

Lemma run_flushed_size (f : string) (lines : list pystr) (st : State) :
  (flushed_size (run f st lines) <= flushed_size st + 2 * List.length lines)%nat.
Proof.
  revert st. induction lines as [|raw lines IH]; intros st.
  - simpl. lia.
  - unfold run in *. cbn [fold_left List.length].
    specialize (IH (step f st raw)).
    pose proof (step_flushed_size f st raw). lia.
Qed.

(** X6. The story never holds more than two blocks per line of the
    document. *)
Theorem story_size_bound (f : string) (lines : list pystr) :
  (List.length (build_story f lines) <= 2 * List.length lines)%nat.
Proof.
  unfold build_story. rewrite flushed_size_flush.
  pose proof (run_flushed_size f lines init) as H.
  unfold flushed_size in H at 2. simpl in H. lia.
Qed.

(** The bound is reached by a document of one bullet line. *)
Example story_size_bound_tight :
  List.length (build_story "Helvetica" [py "- a"]) = 2%nat.
Proof. reflexivity. Qed.

Lemma lists_closed_app (a b : list Flowable) :
  lists_closed a = true -> lists_closed (a ++ b) = lists_closed b.
Proof.
  induction a as [|x a IH]; intros Ha; [reflexivity|].
  destruct x as [t s|w h|items i|t s]; cbn [app lists_closed] in *; auto.
  apply andb_true_iff in Ha as [Ha Hrest].
  apply andb_true_iff in Ha as [Hitems Hsp].
  rewrite Hitems, (IH Hrest).
  destruct a as [|y a']; [discriminate|].
  cbn [app]. now rewrite Hsp.
Qed.

Lemma step_lists_closed (f : string) (st : State) (raw : pystr) :
  lists_closed (story st) = true ->
  lists_closed (story (step f st raw)) = true.
Proof.
  destruct st as [s b c k]. cbn [story]. intros Hs.
  unfold step, flush_bullets, append.
  destruct b as [|b0 b], c, (strip [BOM] raw) as [|ch l];
    cbn [negb app story bullet_buf in_code code_buf];
    repeat match goal with
    | |- context [if ?x then _ else _] =>
        match type of x with bool => destruct x end
    end;
    cbn [negb app story bullet_buf in_code code_buf];
    rewrite ?lists_closed_app; auto; now rewrite lists_closed_app.
Qed.

(** X7. In the story, every list block has at least one item and is
    directly followed by the spacer of height 4; in particular the story
    never ends with a list. *)
Theorem story_lists_closed (f : string) (lines : list pystr) :
  lists_closed (build_story f lines) = true.
Proof.
  unfold build_story.
  assert (H : forall st, lists_closed (story st) = true ->
                lists_closed (story (run f st lines)) = true).
  { induction lines as [|raw lines IH]; intros st Hst; [exact Hst|].
    unfold run in *. cbn [fold_left]. now apply IH, step_lists_closed. }
  specialize (H init eq_refl).
  unfold flush_bullets.
  destruct (bullet_buf (run f init lines)); [exact H|].
  cbn [story]. now rewrite lists_closed_app.
Qed.

Lemma items_normal (f : string) (buf : list pystr) :
  Forall (fun i => match i with ListItem_Paragraph _ s => s = normal f end)
         (map (fun x => ListItem_Paragraph x (normal f)) buf).
Proof. apply Forall_map, Forall_forall. reflexivity. Qed.

Lemma step_blocks_ok (f : string) (st : State) (raw : pystr) :
  Forall (block_ok f) (story st) ->
  Forall (block_ok f) (story (step f st raw)).
Proof.
  destruct st as [s b c k]. cbn [story]. intros Hs.
  unfold step, flush_bullets, append.
  destruct b as [|b0 b], c, (strip [BOM] raw) as [|ch l];
    cbn [negb app story bullet_buf in_code code_buf];
    repeat match goal with
    | |- context [if ?x then _ else _] =>
        match type of x with bool => destruct x end
    end;
    cbn [negb app story bullet_buf in_code code_buf];
    rewrite ?Forall_app; repeat split; try assumption;
    repeat (apply Forall_cons || apply Forall_nil);
    cbn [block_ok]; auto 6;
    (split; [reflexivity | apply (items_normal f (b0 :: b))]).
Qed.

(** X8. Every block of the story is one of the few the loop can build: a
    paragraph in the body style or in one of the three heading styles, a
    spacer of width 1 and height 4 or 6, a list indented by 12 whose items
    are all in the body style, or a preformatted block in the code style. *)
Theorem story_blocks_ok (f : string) (lines : list pystr) :
  Forall (block_ok f) (build_story f lines).
Proof.
  unfold build_story.
  assert (H : forall st, Forall (block_ok f) (story st) ->
                Forall (block_ok f) (story (run f st lines))).
  { induction lines as [|raw lines IH]; intros st Hst; [exact Hst|].
    unfold run in *. cbn [fold_left]. now apply IH, step_blocks_ok. }
  specialize (H init (Forall_nil _)).
  unfold flush_bullets.
  destruct (bullet_buf (run f init lines)) as [|b0 b] eqn:E; [exact H|].
  cbn [story]. apply Forall_app. split; [exact H|].
  repeat (apply Forall_cons || apply Forall_nil); cbn [block_ok]; auto.
  split; [reflexivity | apply (items_normal f (b0 :: b))].
Qed.

(** A line of Normal mode that is neither a fence nor a bullet line, met
    with no bullet pending, adds exactly one block. *)
Lemma plain_line_one_block (f : string) (st : State) (raw : pystr) :
  in_code st = false -> bullet_buf st = [] ->
  is_fence raw = false -> is_bullet raw = false ->
  exists b, step f st raw = append st [b].
Proof.
  unfold is_fence, is_bullet, stripped. intros Hc Hbuf Hf Hb.
  unfold step. rewrite Hf, Hc, (flush_bullets_empty f st Hbuf).
  destruct (strip [BOM] raw) as [|ch l]; [eauto|].
  rewrite Hb.
  repeat match goal with
  | |- context [if ?x then _ else _] =>
      match type of x with bool => destruct x end
  end; eauto.
Qed.

(** From Normal mode with no bullet pending, whether an iteration raises
    depends on the line alone. *)
Lemma step_r_clean (accepts : pystr -> ParagraphStyle -> bool) (f : string)
    (st : State) (raw : pystr) :
  in_code st = false -> bullet_buf st = [] ->
  step_r accepts f st raw =
  if match step_r accepts f init raw with Ok _ => true | Raised _ => false end
  then Ok (step f st raw)
  else Raised "ValueError".
Proof.
  intros Hc Hbuf. unfold step_r, step, new_Paragraph.
  rewrite Hc, (flush_bullets_r_empty accepts f st Hbuf),
    (flush_bullets_r_empty accepts f init eq_refl),
    (flush_bullets_empty f st Hbuf).
  cbn [in_code init negb bind].
  destruct (startswith (strip [BOM] raw) FENCE); [reflexivity|].
  destruct (strip [BOM] raw) as [|c l]; [reflexivity|].
  destruct (startswith (c :: l) H1_MARK);
    [destruct (accepts _ _); reflexivity|].
  destruct (startswith (c :: l) H2_MARK);
    [destruct (accepts _ _); reflexivity|].
  destruct (startswith (c :: l) H3_MARK);
    [destruct (accepts _ _); reflexivity|].
  destruct (startswith (c :: l) DASH_MARK || startswith (c :: l) STAR_MARK);
    [reflexivity|].
  destruct (contains [PIPE] (c :: l) &&
            (contains RULE (c :: l) || (2 <=? count (c :: l) PIPE)%Z));
    [reflexivity|].
  destruct (accepts _ _); reflexivity.
Qed.

(** A line that is neither a fence nor a bullet line converts alone when
    its iteration from the initial state returns. *)
Lemma plain_line_alone (accepts : pystr -> ParagraphStyle -> bool) (f : string)
    (raw : pystr) :
  is_fence raw = false -> is_bullet raw = false ->
  match build_story_r accepts f [raw] with Ok _ => true | Raised _ => false end =
  match step_r accepts f init raw with Ok _ => true | Raised _ => false end.
Proof.
  intros Hf Hb. unfold build_story_r. cbn [run_r].
  destruct (step_r accepts f init raw) as [s|e] eqn:E; [|reflexivity].
  apply step_r_sound in E. subst s. cbn [bind].
  destruct (plain_line_one_block f init raw eq_refl eq_refl Hf Hb) as (b & ->).
  now rewrite flush_bullets_r_empty.
Qed.

(** X9. In a document without fence lines and without bullet lines, the
    conversion returns exactly when every line converts alone, and raises
    ValueError otherwise; when it returns, every line has given exactly one
    block: the story is, line after line, the story of each line taken
    alone, and it has as many blocks as the document has lines. *)
Theorem plain_lines_one_block_each (accepts : pystr -> ParagraphStyle -> bool)
    (f : string) (lines : list pystr) :
  Forall (fun r => is_fence r = false /\ is_bullet r = false) lines ->
  build_story_r accepts f lines =
    (if forallb (fun r => match build_story_r accepts f [r] with
                          | Ok _ => true
                          | Raised _ => false
                          end) lines
     then Ok (flat_map (fun r => build_story f [r]) lines)
     else Raised "ValueError") /\
  (forall blocks, build_story_r accepts f lines = Ok blocks ->
     List.length blocks = List.length lines).
Proof.
  intros Hall.
  assert (H : forall st, in_code st = false -> bullet_buf st = [] ->
            run_r accepts f st lines =
            (if forallb (fun r => match build_story_r accepts f [r] with
                                  | Ok _ => true
                                  | Raised _ => false
                                  end) lines
             then Ok (append st (flat_map (fun r => build_story f [r]) lines))
             else Raised "ValueError") /\
            List.length (flat_map (fun r => build_story f [r]) lines) =
            List.length lines).
  { induction Hall as [|raw lines [Hf Hb] _ IH]; intros st Hc Hbuf.
    - unfold append. simpl. rewrite app_nil_r. now destruct st.
    - destruct (plain_line_one_block f st raw Hc Hbuf Hf Hb) as (b & Hst).
      destruct (plain_line_one_block f init raw eq_refl eq_refl Hf Hb)
        as (b' & Hinit).
      assert (Hsame : b' = b).
      { destruct (step_frame f (story st) st init raw) as (Hs & _); auto.
        - simpl. now rewrite app_nil_r.
        - rewrite Hc. discriminate.
        - rewrite Hst, Hinit in Hs. simpl in Hs.
          apply app_inv_head in Hs. now injection Hs. }
      subst b'.
      assert (Hone : build_story f [raw] = [b]).
      { unfold build_story, run. cbn [fold_left]. rewrite Hinit.
        now rewrite flush_bullets_empty. }
      cbn [run_r forallb flat_map].
      rewrite (plain_line_alone accepts f raw Hf Hb).
      rewrite (step_r_clean accepts f st raw Hc Hbuf), Hone, Hst.
      destruct (step_r accepts f init raw) as [s|e]; cbn [andb bind].
      + destruct (IH (append st [b])) as (Hrun & Hlen); auto.
        rewrite Hrun. split.
        * destruct (forallb _ lines); [|reflexivity].
          unfold append. simpl. now rewrite <- app_assoc.
        * simpl. now rewrite Hlen.
      + split; [reflexivity|].
        destruct (IH (append st [b])) as (_ & Hlen); auto.
        simpl. now rewrite Hlen. }
  destruct (H init eq_refl eq_refl) as (Hrun & Hlen).
  assert (Hstory : build_story_r accepts f lines =
            (if forallb (fun r => match build_story_r accepts f [r] with
                                  | Ok _ => true
                                  | Raised _ => false
                                  end) lines
             then Ok (flat_map (fun r => build_story f [r]) lines)
             else Raised "ValueError")).
  { unfold build_story_r at 1. rewrite Hrun.
    destruct (forallb _ lines); [|reflexivity].
    cbn [bind]. now rewrite flush_bullets_r_empty. }
  split; [exact Hstory|].
  intros blocks Hb. rewrite Hstory in Hb.
  destruct (forallb _ lines); [|discriminate].
  injection Hb as <-. exact Hlen.
Qed.

Lemma plain_lines_one_block_each_witness :
  build_story_r markup_strict "Helvetica"
    [py "# h"; py ""; py "a | b | c"; py "  - nested"; py "text"] =
  Ok [ Paragraph (py "h") (h1 "Helvetica");
       Spacer 1 6;
       Preformatted (py "a | b | c") (code "Helvetica");
       Paragraph (py "  - nested") (normal "Helvetica");
       Paragraph (py "text") (normal "Helvetica") ].
Proof.
  apply (plain_lines_one_block_each markup_strict "Helvetica"
           [py "# h"; py ""; py "a | b | c"; py "  - nested"; py "text"]).
  repeat constructor.
Defined.

(** ** The loop: byte-order marks and markers *)

Lemma lstrip_boms (m : nat) (s : pystr) :
  lstrip [BOM] (boms m ++ s) = lstrip [BOM] s.
Proof. induction m as [|m IH]; [reflexivity | exact IH]. Qed.

Lemma lstrip_app_boms (s : pystr) (n : nat) :
  lstrip [BOM] (s ++ boms n) =
  match lstrip [BOM] s with
  | [] => []
  | c :: t => (c :: t) ++ boms n
  end.
Proof.
  induction s as [|c s IH].
  - simpl. rewrite <- (app_nil_r (boms n)). now rewrite lstrip_boms.
  - cbn [app lstrip]. destruct (mem c [BOM]); [exact IH | reflexivity].
Qed.

Lemma rstrip_app_boms (s : pystr) (n : nat) :
  rstrip [BOM] (s ++ boms n) = rstrip [BOM] s.
Proof.
  unfold rstrip. rewrite rev_app_distr.
  change (rev (boms n)) with (rev (repeat BOM n)). rewrite rev_repeat.
  change (repeat BOM n) with (boms n).
  now rewrite lstrip_boms.
Qed.

Lemma stripped_boms (m n : nat) (raw : pystr) :
  stripped (boms m ++ raw ++ boms n) = stripped raw.
Proof.
  unfold stripped, strip. rewrite lstrip_boms, lstrip_app_boms.
  destruct (lstrip [BOM] raw) as [|c t]; [reflexivity|].
  apply rstrip_app_boms.
Qed.

(** In Normal mode the loop looks at the raw line only to copy a table
    row. *)
Lemma step_by_stripped (f : string) (st : State) (r1 r2 : pystr) :
  stripped r1 = stripped r2 -> in_code st = false ->
  is_table_like r1 = false -> step f st r1 = step f st r2.
Proof.
  unfold stripped, is_table_like, step. intros Heq Hc Ht.
  rewrite <- Heq, Hc.
  destruct (startswith (strip [BOM] r1) FENCE); [reflexivity|].
  unfold stripped in Ht.
  destruct (strip [BOM] r1) as [|c l]; [reflexivity|].
  now rewrite Ht.
Qed.

(** X10. Byte-order marks at either end of a line, in any number, are
    not seen by the loop in Normal mode: the line is classified, and
    unless it is table-like handled, exactly as without them. *)
Theorem boms_invisible (f : string) (st : State) (raw : pystr) (m n : nat) :
  in_code st = false -> is_table_like raw = false ->
  stripped (boms m ++ raw ++ boms n) = stripped raw /\
  step f st (boms m ++ raw ++ boms n) = step f st raw.
Proof.
  intros Hc Ht. split; [apply stripped_boms|].
  symmetry. apply step_by_stripped; auto.
  symmetry. apply stripped_boms.
Qed.

Lemma boms_invisible_witness :
  step "Helvetica" init (boms 2 ++ py "## Title" ++ boms 1) =
  step "Helvetica" init (py "## Title").
Proof.
  apply (boms_invisible "Helvetica" init (py "## Title") 2 1); reflexivity.
Defined.

(** A table row and a line of code keep their byte-order marks. *)
Example boms_kept_in_raw_blocks :
  story (step "Helvetica" init (BOM :: py "a|b|c")) =
    [Preformatted (BOM :: py "a|b|c") (code "Helvetica")] /\
  code_buf (run "Helvetica" init [py "```"; BOM :: py "x"]) = [BOM :: py "x"].
Proof. split; reflexivity. Qed.

(** X11. The two bullet markers are interchangeable: "- text" and
    "* text" add the same item, the text with trailing byte-order marks
    removed, to the same pending list. *)
Theorem bullet_markers_alike (f : string) (st : State) (text : pystr) :
  in_code st = false ->
  step f st (DASH_MARK ++ text) = step f st (STAR_MARK ++ text) /\
  step f st (DASH_MARK ++ text) =
    {| story := story st; bullet_buf := bullet_buf st ++ [rstrip [BOM] text];
       in_code := false; code_buf := code_buf st |}.
Proof.
  intros Hc.
  assert (Hd : stripped (DASH_MARK ++ text) = DASH_MARK ++ rstrip [BOM] text).
  { unfold DASH_MARK. simpl app. rewrite stripped_cons_keep by reflexivity.
    now rewrite rstrip_cons_keep by reflexivity. }
  assert (Hs : stripped (STAR_MARK ++ text) = STAR_MARK ++ rstrip [BOM] text).
  { unfold STAR_MARK. simpl app. rewrite stripped_cons_keep by reflexivity.
    now rewrite rstrip_cons_keep by reflexivity. }
  rewrite (step_bullet f st (DASH_MARK ++ text) Hc),
          (step_bullet f st (STAR_MARK ++ text) Hc).
  - rewrite Hd, Hs. split; reflexivity.
  - unfold is_bullet. now rewrite Hs.
  - unfold is_bullet. now rewrite Hd.
Qed.

Lemma bullet_markers_alike_witness :
  step "Helvetica" init (py "- milk") = step "Helvetica" init (py "* milk").
Proof.
  apply (bullet_markers_alike "Helvetica" init (py "milk")). reflexivity.
Defined.

Lemma isspace_not_marker (c : char) :
  isspace c = true ->
  N.eqb c BOM = false /\ N.eqb c 96 = false /\ N.eqb c 35 = false /\
  N.eqb c 45 = false /\ N.eqb c 42 = false.
Proof.
  intros Hc.
  repeat split;
    match goal with
    | |- N.eqb c ?k = false =>
        destruct (N.eqb c k) eqn:E; [|reflexivity];
        apply N.eqb_eq in E; subst c; discriminate Hc
    end.
Qed.

(** X12. A line that begins with a whitespace character is never a fence,
    a heading or a bullet: in Normal mode the loop flushes the bullets and
    then, when the line is table-like, appends one preformatted block with
    the raw line, and otherwise builds one paragraph in the body style from
    the line with its leading whitespace; it raises ValueError when the
    layout library refuses a pending item or that paragraph. *)
Theorem indented_line_plain (accepts : pystr -> ParagraphStyle -> bool)
    (f : string) (st : State) (c : char) (s : pystr) :
  isspace c = true -> in_code st = false ->
  is_fence (c :: s) = false /\ heading_level (c :: s) = None /\
  is_bullet (c :: s) = false /\
  step_r accepts f st (c :: s) =
  (st' <- flush_bullets_r accepts f st ;;
   if is_table_like (c :: s)
   then Ok (append st' [Preformatted (c :: s) (code f)])
   else p <- new_Paragraph accepts (c :: rstrip [BOM] s) (normal f) ;;
        Ok (append st' [p])).
Proof.
  intros Hsp Hc.
  destruct (isspace_not_marker c Hsp) as (Hbom & H96 & H35 & H45 & H42).
  pose proof (stripped_cons_keep c s Hbom) as Hline.
  assert (Hf : is_fence (c :: s) = false).
  { unfold is_fence. rewrite Hline. simpl. now rewrite H96. }
  assert (Hb : is_blank (c :: s) = false).
  { unfold is_blank. now rewrite Hline. }
  assert (Hh : heading_level (c :: s) = None).
  { unfold heading_level. rewrite Hline. simpl. now rewrite H35. }
  assert (Hbu : is_bullet (c :: s) = false).
  { unfold is_bullet. rewrite Hline. simpl. now rewrite H45, H42. }
  repeat split; auto.
  destruct (is_table_like (c :: s)) eqn:Ht.
  - now apply step_r_table.
  - rewrite <- Hline. now apply step_r_paragraph.
Qed.

Lemma indented_line_plain_witness :
  step_r markup_strict "Helvetica" init (py "  - nested") =
  Ok {| story := [Paragraph (py "  - nested") (normal "Helvetica")];
        bullet_buf := []; in_code := false; code_buf := [] |}.
Proof.
  apply (indented_line_plain markup_strict "Helvetica" init 32%N
           (py " - nested"));
    reflexivity.
Defined.

(** X13. A heading marker is one, two or three hashes and a space: a line
    that, once stripped, is n hashes, a space and a text is a heading of
    level n for n from 1 to 3, and is no heading for n = 0 and for n of 4
    and more. For a heading, in Normal mode, the loop flushes the bullets
    and builds one paragraph from exactly that text in the style of the
    level; it raises ValueError when the layout library refuses a pending
    item or that text. *)
Theorem heading_marker (accepts : pystr -> ParagraphStyle -> bool) (f : string)
    (st : State) (raw : pystr) (n : nat) (text : pystr) :
  in_code st = false ->
  stripped raw = repeat 35%N n ++ 32%N :: text ->
  heading_level raw = (if (1 <=? n)%nat && (n <=? 3)%nat then Some n else None) /\
  ((1 <= n <= 3)%nat ->
   step_r accepts f st raw =
   (st' <- flush_bullets_r accepts f st ;;
    p <- new_Paragraph accepts text (heading_style f n) ;;
    Ok (append st' [p]))).
Proof.
  intros Hc Hline.
  assert (Hlevel : heading_level raw =
            (if (1 <=? n)%nat && (n <=? 3)%nat then Some n else None)).
  { unfold heading_level. rewrite Hline.
    destruct n as [|[|[|[|n]]]]; reflexivity. }
  split; [exact Hlevel|].
  intros Hn.
  destruct (heading_line_facts raw n text (conj Hn Hline)) as [Hsome Htext].
  now rewrite (step_r_heading accepts f st raw n Hc Hsome), Htext.
Qed.

Lemma heading_marker_witness :
  heading_level (py "#### deep") = None.
Proof.
  apply (heading_marker markup_strict "Helvetica" init (py "#### deep") 4
           (py "deep"));
    reflexivity.
Defined.

(** ** The font resolver: what it can return *)

(** X14. When the resolver returns, it returns one of four family names.
    With "Helvetica" the font registry is left as it was; with another
    family the registry holds, under that name, a font of that name, and
    every other name is as before. A second call then returns the same
    family and changes nothing: the registry is keyed by name. When the
    resolver raises, the registry is left as it was. *)
Theorem load_font_family (env : Env) (reg : Registry) :
  (forall fam reg', load_font env reg = (Ok fam, reg') ->
     In fam ["MicrosoftJhengHei"; "NotoSansCJK"; "NotoSansTC"; "Helvetica"]%string /\
     (fam = "Helvetica"%string -> reg' = reg) /\
     (fam <> "Helvetica"%string ->
      exists p,
        reg' = registerFont {| face := fam; font_file := p |} reg /\
        dict_get fam reg' = Some {| face := fam; font_file := p |} /\
        forall n, n <> fam -> dict_get n reg' = dict_get n reg) /\
     load_font env reg' = (Ok fam, reg')) /\
  (forall e reg', load_font env reg = (Raised e, reg') -> reg' = reg).
Proof.
  destruct (load_font_candidates_effect env candidates)
    as (r & effect & Hshape & Hrun).
  unfold load_font. split.
  - intros fam reg' Hload. rewrite Hrun in Hload. injection Hload as -> <-.
    destruct Hshape as [(-> & [Hr | (e & Hr)]) | (fam' & p & Hr & Hin & ->)];
      try discriminate.
    + injection Hr as <-. repeat split.
      * simpl. auto.
      * intros Hne. contradiction.
      * apply Hrun.
    + injection Hr as <-.
      assert (Hnot : fam <> "Helvetica"%string).
      { simpl in Hin.
        destruct Hin as [<- | [<- | [<- | [<- | []]]]]; discriminate. }
      repeat split.
      * simpl in Hin. simpl. tauto.
      * intros Hh. contradiction.
      * intros _. exists p. repeat split.
        -- apply dict_get_set_same.
        -- intros n Hn. now apply dict_get_set_other.
      * rewrite Hrun. unfold registerFont. cbn [face].
        now rewrite dict_set_idem.
  - intros e reg' Hload. rewrite Hrun in Hload. injection Hload as -> <-.
    destruct Hshape as [(-> & _) | (fam' & p & Hr & _)];
      [reflexivity | discriminate].
Qed.

(** The registry after two calls on a machine with a font. *)
Example load_font_twice :
  load_font env_noto (snd (load_font env_noto [])) = load_font env_noto [].
Proof. reflexivity. Qed.

(* ================================================================= *)
(** * The batch driver *)

(** ** Output names *)

Lemma list_ascii_of_string_app (a b : string) :
  list_ascii_of_string (a ++ b) = list_ascii_of_string a ++ list_ascii_of_string b.
Proof. induction a as [|c a IH]; simpl; [reflexivity | now rewrite IH]. Qed.

Lemma rfind_from_app (c : ascii) (a b : list ascii) (i : nat)
    (found : option nat) :
  rfind_from c (a ++ b) i found =
  rfind_from c b (i + List.length a) (rfind_from c a i found).
Proof.
  revert i found. induction a as [|d a IH]; intros i found; simpl.
  - now rewrite Nat.add_0_r.
  - rewrite IH. f_equal. lia.
Qed.

Lemma stem_of_md (base : string) :
  base <> ""%string -> stem_of_name (base ++ ".md") = base.
Proof.
  intros Hne. unfold stem_of_name, rfind.
  rewrite list_ascii_of_string_app, rfind_from_app. simpl.
  rewrite length_app. simpl.
  assert (Hpos : (0 < List.length (list_ascii_of_string base))%nat).
  { destruct base; [contradiction | simpl; lia]. }
  apply Nat.ltb_lt in Hpos. rewrite Hpos.
  replace (List.length (list_ascii_of_string base) <?
           List.length (list_ascii_of_string base) + 3 - 1)%nat with true
    by (symmetry; apply Nat.ltb_lt; lia).
  simpl. rewrite firstn_app, firstn_all, Nat.sub_diag. simpl.
  now rewrite app_nil_r, string_of_list_ascii_of_string.
Qed.

Lemma string_app_inv_tail (a b c : string) :
  (a ++ c)%string = (b ++ c)%string -> a = b.
Proof.
  intros H. apply (f_equal list_ascii_of_string) in H.
  rewrite !list_ascii_of_string_app in H. apply app_inv_tail in H.
  apply (f_equal string_of_list_ascii) in H.
  now rewrite !string_of_list_ascii_of_string in H.
Qed.

Lemma path_name_div (dir : Path) (name : string) :
  path_name (path_div dir name) = name.
Proof. unfold path_name, path_div. apply last_last. Qed.

(** X15. A document named base.md, with a base that is not empty, is
    written to base.pdf in the output directory and titled base, wherever
    the base has dots of its own; so two such documents with different
    names never share an output file. *)
Theorem pdf_for_md (out_dir docs_dir : Path) (base other : string) :
  base <> ""%string -> other <> ""%string ->
  path_stem (path_div docs_dir (base ++ ".md")) = base /\
  pdf_for out_dir (path_div docs_dir (base ++ ".md")) =
    path_div out_dir (base ++ ".pdf") /\
  (pdf_for out_dir (path_div docs_dir (base ++ ".md")) =
   pdf_for out_dir (path_div docs_dir (other ++ ".md")) -> base = other).
Proof.
  intros Hbase Hother.
  assert (Hstem : forall b, b <> ""%string ->
            path_stem (path_div docs_dir (b ++ ".md")) = b).
  { intros b Hb. unfold path_stem. rewrite path_name_div.
    now apply stem_of_md. }
  split; [now apply Hstem|]. unfold pdf_for.
  rewrite (Hstem base Hbase), (Hstem other Hother).
  split; [reflexivity|].
  unfold path_div. intros H. apply app_inj_tail in H as [_ H].
  now apply string_app_inv_tail in H.
Qed.

Lemma pdf_for_md_witness :
  pdf_for ["dist"; "pdf"]%string (path_div ["docs"%string] ("notes.v2" ++ ".md")) =
  path_div ["dist"; "pdf"]%string ("notes.v2" ++ ".pdf").
Proof.
  apply (pdf_for_md ["dist"; "pdf"]%string ["docs"%string] "notes.v2" "x");
    discriminate.
Defined.

(** Names outside that pattern: no suffix, and a name that is only a
    suffix. *)
Example stem_edge_names :
  stem_of_name "README" = "README"%string /\
  stem_of_name ".md" = ".md"%string /\
  stem_of_name "a.tar.md" = "a.tar"%string /\
  stem_of_name "trailing." = "trailing."%string.
Proof. repeat split; reflexivity. Qed.

(** Where the hypothesis of X15 fails: a file named ".md" and a file named
    ".md.md" are written to the same output. *)
Example pdf_for_hidden_clash :
  pdf_for ["dist"; "pdf"]%string ["docs"; ".md"]%string =
  pdf_for ["dist"; "pdf"]%string ["docs"; ".md.md"]%string.
Proof. reflexivity. Qed.

(** ** The registry across calls *)

(** The outcome of the resolver does not depend on the registry, and what
    it does to the registry is to store one font under its name, or
    nothing. *)
Lemma load_font_effect (env : Env) :
  exists r effect,
    forall reg,
      load_font env reg =
      (r, match effect with
          | Some font => registerFont font reg
          | None => reg
          end).
Proof.
  destruct (load_font_candidates_effect env candidates)
    as (r & effect & _ & Hrun).
  now exists r, effect.
Qed.

(** Resolving again leaves the registry as the first call left it. *)
Lemma load_font_again (env : Env) (reg : Registry) :
  snd (load_font env (snd (load_font env reg))) = snd (load_font env reg).
Proof.
  destruct (load_font_effect env) as (r & effect & Hrun).
  rewrite !Hrun. cbn [snd].
  destruct effect as [font|]; [|reflexivity].
  unfold registerFont. apply dict_set_idem.
Qed.

Lemma convert_io_reg (host : Host) (reg : Registry) (md pdf : Path) :
  convert_markdown_to_pdf_io host reg md pdf =
  (fst (fst (convert_markdown_to_pdf_io host [] md pdf)),
   snd (load_font (host_env host) reg),
   snd (convert_markdown_to_pdf_io host [] md pdf)).
Proof.
  destruct (load_font_effect (host_env host)) as (r & effect & Hrun).
  unfold convert_markdown_to_pdf_io. rewrite !Hrun. cbn [snd].
  destruct r as [fam|e]; [|reflexivity].
  destruct (read_text host md); [|reflexivity].
  destruct (convert_story_r _ _ _); reflexivity.
Qed.

Lemma convert_io_built (host : Host) (out_dir md : Path) :
  built_files (snd (convert_markdown_to_pdf_io host [] md (pdf_for out_dir md))) =
  if converts host out_dir md then [str_path host (pdf_for out_dir md)] else [].
Proof.
  unfold converts, convert_markdown_to_pdf_io.
  destruct (load_font (host_env host) []) as [[fam|e] added]; [|reflexivity].
  destruct (read_text host md); [|reflexivity].
  destruct (convert_story_r _ _ _); [|reflexivity].
  unfold write_pdf. cbn [fst snd].
  destruct (mkdir host (path_parent (pdf_for out_dir md))); [|reflexivity].
  destruct (doc_build host _ _); reflexivity.
Qed.

Lemma built_files_app (a b : list Event) :
  built_files (a ++ b) = built_files a ++ built_files b.
Proof. unfold built_files. apply flat_map_app. Qed.

(** The loop of [main]: the files built and the outcome. *)
Lemma main_loop_spec (host : Host) (out_dir : Path) (mds : list Path)
    (reg : Registry) :
  built_files (snd (main_loop host out_dir mds reg)) =
    map (fun md => str_path host (pdf_for out_dir md))
        (take_while (converts host out_dir) mds) /\
  (fst (fst (main_loop host out_dir mds reg)) = Ok tt <->
   forallb (converts host out_dir) mds = true).
Proof.
  revert reg. induction mds as [|md rest IH]; intros reg.
  - simpl. repeat split; auto.
  - cbn [main_loop take_while forallb].
    rewrite (convert_io_reg host reg md (pdf_for out_dir md)).
    pose proof (convert_io_built host out_dir md) as Hbuilt.
    assert (Hcv : converts host out_dir md =
              match fst (fst (convert_markdown_to_pdf_io host [] md
                                (pdf_for out_dir md))) with
              | Ok _ => true
              | Raised _ => false
              end) by reflexivity.
    destruct (fst (fst (convert_markdown_to_pdf_io host [] md
                          (pdf_for out_dir md)))) as [u|e] eqn:E;
      rewrite Hcv in *; clear Hcv.
    + destruct (IH (snd (load_font (host_env host) reg))) as (Hb & Ho).
      destruct (main_loop host out_dir rest
                  (snd (load_font (host_env host) reg)))
        as [[r reg''] events'].
      cbn [fst snd andb] in *. repeat split.
      * change (built_files (Print ?l :: ?evs)) with (built_files evs).
        rewrite built_files_app, Hbuilt, Hb. reflexivity.
      * apply Ho.
      * apply Ho.
    + cbn [fst snd andb]. repeat split; try discriminate.
      change (built_files (Print ?l :: ?evs)) with (built_files evs).
      exact Hbuilt.
Qed.

(** The registry after the loop of [main]: as one call of the resolver
    leaves it, however many documents there are. *)
Lemma main_loop_registry (host : Host) (out_dir : Path) (mds : list Path)
    (reg : Registry) :
  mds <> [] ->
  snd (fst (main_loop host out_dir mds reg)) =
  snd (load_font (host_env host) reg).
Proof.
  revert reg. induction mds as [|md rest IH]; intros reg Hne; [contradiction|].
  cbn [main_loop].
  rewrite (convert_io_reg host reg md (pdf_for out_dir md)).
  destruct (fst (fst (convert_markdown_to_pdf_io host [] md
                        (pdf_for out_dir md)))) as [u|e]; [|reflexivity].
  destruct rest as [|md' rest'].
  - reflexivity.
  - specialize (IH (snd (load_font (host_env host) reg))).
    destruct (main_loop host out_dir (md' :: rest')
                (snd (load_font (host_env host) reg)))
      as [[r reg''] events'].
    cbn [fst snd] in *. rewrite IH by discriminate.
    apply load_font_again.
Qed.

Lemma printed_app (a b : list Event) :
  printed (a ++ b) = printed a ++ printed b.
Proof. unfold printed. apply flat_map_app. Qed.

Lemma convert_io_printed (host : Host) (reg : Registry) (md pdf : Path) :
  printed (snd (convert_markdown_to_pdf_io host reg md pdf)) = [].
Proof.
  unfold convert_markdown_to_pdf_io.
  destruct (load_font (host_env host) reg) as [[fam|e] added]; [|reflexivity].
  destruct (read_text host md); [|reflexivity].
  destruct (convert_story_r _ _ _); [|reflexivity].
  unfold write_pdf. cbn [fst snd].
  destruct (mkdir host (path_parent pdf)); [|reflexivity].
  destruct (doc_build host _ _); reflexivity.
Qed.

(** The lines the loop of [main] prints: one for each document it starts
    on, the first that fails included. *)
Lemma main_loop_printed (host : Host) (out_dir : Path) (mds : list Path)
    (reg : Registry) :
  printed (snd (main_loop host out_dir mds reg)) =
  map (fun md => ("Converting " ++ str_path host md ++ " -> " ++
                  str_path host (pdf_for out_dir md))%string)
      (firstn (List.length (take_while (converts host out_dir) mds) +
               (if forallb (converts host out_dir) mds then 0 else 1)) mds).
Proof.
  revert reg. induction mds as [|md rest IH]; intros reg.
  - reflexivity.
  - cbn [main_loop take_while forallb].
    pose proof (convert_io_printed host reg md (pdf_for out_dir md)) as Hp.
    rewrite (convert_io_reg host reg md (pdf_for out_dir md)) in *.
    assert (Hcv : converts host out_dir md =
              match fst (fst (convert_markdown_to_pdf_io host [] md
                                (pdf_for out_dir md))) with
              | Ok _ => true
              | Raised _ => false
              end) by reflexivity.
    destruct (fst (fst (convert_markdown_to_pdf_io host [] md
                          (pdf_for out_dir md)))) as [u|e] eqn:E;
      rewrite Hcv in *; clear Hcv; cbn [fst snd] in Hp.
    + specialize (IH (snd (load_font (host_env host) reg))).
      destruct (main_loop host out_dir rest
                  (snd (load_font (host_env host) reg)))
        as [[r reg''] events'].
      cbn [fst snd andb List.length Nat.add firstn map] in *.
      change (printed (Print ?l :: ?evs)) with (l :: printed evs).
      now rewrite printed_app, Hp, IH.
    + cbn [fst snd andb List.length Nat.add firstn map].
      change (printed (Print ?l :: ?evs)) with (l :: printed evs).
      now rewrite Hp.
Qed.

(** X16. Once the output directory is made, the batch converts the
    documents in the order the directory listing gives them and stops at the
    first one that fails: the files laid out are those of the leading
    documents that convert, each under dist/pdf, and the run ends without an
    exception exactly when every document converts. *)
Theorem main_builds_until_failure (host : Host) (reg : Registry) :
  mkdir host ["dist"; "pdf"]%string = Ok tt ->
  built_files (snd (main host reg)) =
    map (fun md => str_path host (pdf_for ["dist"; "pdf"]%string md))
        (take_while (converts host ["dist"; "pdf"]%string)
           (map (path_div ["docs"%string]) (glob host ["docs"%string] "*.md"))) /\
  (fst (fst (main host reg)) = Ok tt <->
   forallb (converts host ["dist"; "pdf"]%string)
     (map (path_div ["docs"%string]) (glob host ["docs"%string] "*.md")) = true).
Proof.
  intros Hmk. unfold main. rewrite Hmk.
  destruct (map (path_div ["docs"%string]) (glob host ["docs"%string] "*.md"))
    as [|md rest] eqn:Emds.
  - simpl. split; [reflexivity | tauto].
  - destruct (main_loop_spec host ["dist"; "pdf"]%string (md :: rest) reg)
      as (Hb & Ho).
    destruct (main_loop host ["dist"; "pdf"]%string (md :: rest) reg)
      as [[[u|e] reg'] events]; cbn [fst snd] in *.
    + split.
      * change (built_files (Mkdir ?p :: ?evs)) with (built_files evs).
        rewrite built_files_app, Hb. simpl. now rewrite app_nil_r.
      * split; [intros _; now apply Ho; destruct u | reflexivity].
    + split; [exact Hb|].
      split; [discriminate|]. intros H. apply Ho in H. discriminate H.
Qed.

Lemma main_builds_until_failure_witness :
  built_files (snd (main host_demo [])) = ["dist/pdf/a.pdf"%string].
Proof.
  destruct (main_builds_until_failure host_demo [] eq_refl) as [H _].
  exact H.
Defined.

(** X17. The resolver runs again for every document the batch starts on,
    and that changes nothing after the first: when docs/ lists a document,
    the registry ends as one call of the resolver leaves it, however many
    documents there are and whether or not they convert; when it lists
    none, the registry is untouched. *)
Theorem main_registry_once (host : Host) (reg : Registry) :
  mkdir host ["dist"; "pdf"]%string = Ok tt ->
  snd (fst (main host reg)) =
  match glob host ["docs"%string] "*.md" with
  | [] => reg
  | _ :: _ => snd (load_font (host_env host) reg)
  end.
Proof.
  intros Hmk. unfold main. rewrite Hmk.
  destruct (glob host ["docs"%string] "*.md") as [|name names];
    [reflexivity|].
  cbn [map].
  pose proof (main_loop_registry host ["dist"; "pdf"]%string
                (path_div ["docs"%string] name ::
                 map (path_div ["docs"%string]) names) reg) as Hr.
  destruct (main_loop host ["dist"; "pdf"]%string
              (path_div ["docs"%string] name ::
               map (path_div ["docs"%string]) names) reg)
    as [[[u|e] reg'] events]; cbn [fst snd] in *; apply Hr; discriminate.
Qed.

Lemma main_registry_once_witness :
  snd (fst (main host_demo [])) =
  [("NotoSansTC"%string,
    {| face := "NotoSansTC";
       font_file := ["srv"; "prompts"; "fonts"; "NotoSansTC-Regular.otf"]%string |})].
Proof.
  rewrite (main_registry_once host_demo [] eq_refl). reflexivity.
Defined.

(** X18. What the batch prints: the no-files message alone when the
    listing is empty; otherwise one "Converting" line per document it starts
    on, in order, and the closing "Done" line only when every document
    converted. *)
Theorem main_prints (host : Host) (reg : Registry) :
  mkdir host ["dist"; "pdf"]%string = Ok tt ->
  printed (snd (main host reg)) =
  match map (path_div ["docs"%string]) (glob host ["docs"%string] "*.md") with
  | [] => ["No Markdown files found in docs/."%string]
  | mds =>
      map (fun md => ("Converting " ++ str_path host md ++ " -> " ++
                      str_path host (pdf_for ["dist"; "pdf"]%string md))%string)
          (firstn (List.length
                     (take_while (converts host ["dist"; "pdf"]%string) mds) +
                   (if forallb (converts host ["dist"; "pdf"]%string) mds
                    then 0 else 1)) mds) ++
      (if forallb (converts host ["dist"; "pdf"]%string) mds
       then [("Done. PDFs at: " ++ str_path host ["dist"; "pdf"]%string)%string]
       else [])
  end.
Proof.
  intros Hmk. unfold main. rewrite Hmk.
  destruct (map (path_div ["docs"%string]) (glob host ["docs"%string] "*.md"))
    as [|md rest] eqn:Emds; [reflexivity|].
  pose proof (main_loop_printed host ["dist"; "pdf"]%string (md :: rest) reg)
    as Hp.
  destruct (main_loop_spec host ["dist"; "pdf"]%string (md :: rest) reg)
    as (_ & Ho).
  destruct (main_loop host ["dist"; "pdf"]%string (md :: rest) reg)
    as [[[u|e] reg'] events]; cbn [fst snd] in *.
  - assert (Hall : forallb (converts host ["dist"; "pdf"]%string) (md :: rest)
                   = true) by (apply Ho; now destruct u).
    rewrite Hall in *.
    change (printed (Mkdir ?p :: ?evs)) with (printed evs).
    now rewrite printed_app, Hp.
  - destruct (forallb (converts host ["dist"; "pdf"]%string) (md :: rest)).
    + destruct Ho as [_ Ho]. discriminate (Ho eq_refl).
    + change (printed (Mkdir ?p :: ?evs)) with (printed evs).
      now rewrite Hp, app_nil_r.
Qed.

Lemma main_prints_witness :
  printed (snd (main host_demo [])) =
  ["Converting docs/a.md -> dist/pdf/a.pdf";
   "Converting docs/bad.md -> dist/pdf/bad.pdf"]%string.
Proof.
  rewrite (main_prints host_demo [] eq_refl). reflexivity.
Defined.

Lemma convert_io_build_event (host : Host) (reg : Registry) (md pdf : Path)
    (doc : DocTemplate) (story : list Flowable) :
  In (Build doc story) (snd (convert_markdown_to_pdf_io host reg md pdf)) ->
  exists text fam,
    read_text host md = Ok text /\
    fst (load_font (host_env host) []) = Ok fam /\
    story = convert_story fam text /\
    doc = {| filename := str_path host pdf; pagesize := A4;
             rightMargin := times_mm 18; leftMargin := times_mm 18;
             topMargin := times_mm 18; bottomMargin := times_mm 18;
             title := path_stem md |}.
Proof.
  rewrite (convert_io_reg host reg md pdf). cbn [snd].
  unfold convert_markdown_to_pdf_io.
  destruct (load_font (host_env host) []) as [[fam|e] added]; [|intros []].
  destruct (read_text host md) as [text|e]; [|intros []].
  destruct (convert_story_r (paragraph_ok (host_env host)) fam text)
    as [blocks|e] eqn:Estory; [|intros []].
  apply build_story_r_sound in Estory.
  unfold write_pdf. cbn [fst snd].
  destruct (mkdir host (path_parent pdf)); [|intros []].
  destruct (doc_build host _ _); cbn [snd In].
  - intros [H | [H | []]]; [discriminate H|].
    injection H as <- <-. exists text, fam. auto.
  - intros [H | []]. discriminate H.
Qed.

Lemma main_loop_build_event (host : Host) (out_dir : Path) (mds : list Path)
    (reg : Registry) (doc : DocTemplate) (story : list Flowable) :
  In (Build doc story) (snd (main_loop host out_dir mds reg)) ->
  exists md reg0,
    In md mds /\
    In (Build doc story)
       (snd (convert_markdown_to_pdf_io host reg0 md (pdf_for out_dir md))).
Proof.
  revert reg. induction mds as [|md rest IH]; intros reg; [intros []|].
  cbn [main_loop].
  destruct (convert_markdown_to_pdf_io host reg md (pdf_for out_dir md))
    as [[[u|e] reg'] events] eqn:E.
  - specialize (IH reg').
    destruct (main_loop host out_dir rest reg') as [[r reg''] events'].
    cbn [snd In] in *. intros [H | H]; [discriminate H|].
    apply in_app_or in H as [H | H].
    + exists md, reg. rewrite E. split; [now left | exact H].
    + destruct (IH H) as (md' & reg0 & Hin & Hev).
      exists md', reg0. split; [now right | exact Hev].
  - cbn [snd In]. intros [H | H]; [discriminate H|].
    exists md, reg. rewrite E. split; [now left | exact H].
Qed.

(** X19. Every document the batch lays out comes from a listed file of
    docs/ that could be read: its story is the story of that file's text in
    the family the resolver returns, its file is dist/pdf/stem.pdf, its
    title the stem, its page A4 with margins of 18 mm on the four sides. *)
Theorem main_build_events (host : Host) (reg : Registry) (doc : DocTemplate)
    (story : list Flowable) :
  In (Build doc story) (snd (main host reg)) ->
  exists name text fam,
    In name (glob host ["docs"%string] "*.md") /\
    read_text host ["docs"%string; name] = Ok text /\
    fst (load_font (host_env host) []) = Ok fam /\
    story = convert_story fam text /\
    doc = {| filename :=
               str_path host ["dist"; "pdf"; stem_of_name name ++ ".pdf"]%string;
             pagesize := A4;
             rightMargin := times_mm 18; leftMargin := times_mm 18;
             topMargin := times_mm 18; bottomMargin := times_mm 18;
             title := stem_of_name name |}.
Proof.
  unfold main.
  destruct (mkdir host ["dist"; "pdf"]%string); [|intros []].
  destruct (map (path_div ["docs"%string]) (glob host ["docs"%string] "*.md"))
    as [|md0 rest] eqn:Emds.
  - cbn [snd In]. intros [H | [H | []]]; discriminate H.
  - intros Hin.
    assert (Hloop : In (Build doc story)
              (snd (main_loop host ["dist"; "pdf"]%string (md0 :: rest) reg))).
    { destruct (main_loop host ["dist"; "pdf"]%string (md0 :: rest) reg)
        as [[[u|e] reg'] events]; cbn [snd In] in *;
        destruct Hin as [H | H]; try discriminate H; [|exact H].
      apply in_app_or in H as [H | [H | []]]; [exact H | discriminate H]. }
    destruct (main_loop_build_event host _ _ reg doc story Hloop)
      as (md & reg0 & Hmd & Hev).
    rewrite <- Emds in Hmd. apply in_map_iff in Hmd as (name & <- & Hname).
    destruct (convert_io_build_event host reg0 _ _ doc story Hev)
      as (text & fam & Hread & Hfam & Hstory & Hdoc).
    exists name, text, fam. repeat split; auto.
Qed.

Lemma main_build_events_witness :
  exists name text fam,
    In name (glob host_demo ["docs"%string] "*.md") /\
    read_text host_demo ["docs"%string; name] = Ok text /\
    fst (load_font (host_env host_demo) []) = Ok fam /\
    [Paragraph (py "Title") (h1 "NotoSansTC")] = convert_story fam text /\
    {| filename := "dist/pdf/a.pdf"; pagesize := A4;
       rightMargin := times_mm 18; leftMargin := times_mm 18;
       topMargin := times_mm 18; bottomMargin := times_mm 18;
       title := "a" |} =
    {| filename :=
         str_path host_demo ["dist"; "pdf"; stem_of_name name ++ ".pdf"]%string;
       pagesize := A4;
       rightMargin := times_mm 18; leftMargin := times_mm 18;
       topMargin := times_mm 18; bottomMargin := times_mm 18;
       title := stem_of_name name |}.
Proof.
  apply (main_build_events host_demo []). vm_compute. auto.
Defined.
